(** * X_Scraper: the sticky-session scraping engine (twitter_scraper.py)

    A shallow embedding of the proxy pool, the extraction engine, the
    session scroll loop and the orchestrator, with the properties the
    specification states about them.

    Modelling conventions.
    - A decoded JSON payload is a value of [json].  A Python [dict] is an
      association list in insertion order; [dict.get] finds the first
      binding of a key.  JSON numbers are the integers ([Z]).
    - A Python [str] is a [string] whose characters are the code points
      below 256; [str.isdigit], [str.strip] and the order on strings are
      Python's, restricted to that range.
    - A Python exception is a value [Raise e] of [result]; nothing else
      is lost, so a call that raises returns no records at all.
    - The wall clock, the random pauses and everything the browser and
      the other threads do are oracles passed as arguments. *)

From Stdlib Require Import ZArith Ascii String List Bool Lia Permutation.
From stdpp Require Import base decidable option list sorting gmap strings pretty.

Set Warnings "-clear-no-such-hyp".

Open Scope Z_scope.
Open Scope string_scope.
Open Scope list_scope.

(** ** Python values and exceptions *)

Inductive exn :=
| AttributeError
| TypeError
| KeyError
| IndexError
| ValueError
| TimeoutError
| FileNotFoundError.

Inductive result (A : Type) :=
| Ok (a : A)
| Raise (e : exn).
Arguments Ok {A} a.
Arguments Raise {A} e.

Definition rbind {A B} (f : A → result B) (m : result A) : result B :=
  match m with
  | Ok a => f a
  | Raise e => Raise e
  end.

(** [rmap f r]: [f] under a result that may be an exception. *)
Definition rmap {A B} (f : A → B) (r : result A) : result B :=
  match r with
  | Ok a => Ok (f a)
  | Raise e => Raise e
  end.

#[global] Instance result_ret : MRet result := λ A a, Ok a.
#[global] Instance result_bind : MBind result := λ A B f m, rbind f m.

Definition is_ok {A} (m : result A) : bool :=
  match m with Ok _ => true | Raise _ => false end.

#[warnings="-register-all"]
Inductive json :=
| JNull
| JBool (b : bool)
| JNum (n : Z)
| JStr (s : string)
| JArr (items : list json)
| JObj (fields : list (string * json)).

Definition dict := list (string * json).

(** Induction on payloads, with the hypotheses for the nested lists. *)
Section json_induction.
Variable P : json → Prop.
Hypothesis Hnull : P JNull.
Hypothesis Hbool : ∀ b, P (JBool b).
Hypothesis Hnum : ∀ n, P (JNum n).
Hypothesis Hstr : ∀ s, P (JStr s).
Hypothesis Harr : ∀ l, Forall P l → P (JArr l).
Hypothesis Hobj : ∀ d, Forall (λ kv, P kv.2) d → P (JObj d).

Fixpoint json_nested_ind (j : json) : P j :=
  match j with
  | JNull => Hnull
  | JBool b => Hbool b
  | JNum n => Hnum n
  | JStr s => Hstr s
  | JArr l =>
      Harr l ((fix go (l : list json) : Forall P l :=
                 match l with
                 | [] => List.Forall_nil P
                 | x :: l' => @List.Forall_cons _ P x l' (json_nested_ind x) (go l')
                 end) l)
  | JObj d =>
      Hobj d ((fix go (d : dict) : Forall (λ kv, P kv.2) d :=
                 match d with
                 | [] => List.Forall_nil (λ kv, P kv.2)
                 | kv :: d' =>
                     @List.Forall_cons _ (λ kv, P kv.2) kv d' (json_nested_ind kv.2) (go d')
                 end) d)
  end.
End json_induction.

(** [bool(v)]: Python truthiness of a decoded value. *)
Definition truthy (v : json) : bool :=
  match v with
  | JNull => false
  | JBool b => b
  | JNum n => negb (n =? 0)%Z
  | JStr s => negb (String.eqb s "")
  | JArr l => match l with [] => false | _ => true end
  | JObj d => match d with [] => false | _ => true end
  end.

(** [a or b] *)
Definition py_or (a b : json) : json := if truthy a then a else b.

Fixpoint lookup_key (k : string) (d : dict) : option json :=
  match d with
  | [] => None
  | (k', v) :: d' => if String.eqb k k' then Some v else lookup_key k d'
  end.

(** [k in d] *)
Definition has_key (k : string) (d : dict) : bool :=
  match lookup_key k d with Some _ => true | None => false end.

(** [d.get(k, default)] on a value known to be a dict *)
Definition dict_get (k : string) (default : json) (d : dict) : json :=
  match lookup_key k d with Some v => v | None => default end.

(** [o.get(k, default)]: only a dict has the method. *)
Definition py_get (k : string) (default : json) (o : json) : result json :=
  match o with
  | JObj d => Ok (dict_get k default d)
  | _ => Raise AttributeError
  end.

(** [o[k]] with a string key *)
Definition py_item (k : string) (o : json) : result json :=
  match o with
  | JObj d => match lookup_key k d with Some v => Ok v | None => Raise KeyError end
  | _ => Raise TypeError
  end.

Fixpoint chars (s : string) : list json :=
  match s with
  | EmptyString => []
  | String c s' => JStr (String c EmptyString) :: chars s'
  end.

(** [for x in o]: a list yields its items, a dict its keys, a str its
    characters; nothing else is iterable. *)
Definition py_iter (o : json) : result (list json) :=
  match o with
  | JArr l => Ok l
  | JObj d => Ok (map (λ kv, JStr kv.1) d)
  | JStr s => Ok (chars s)
  | _ => Raise TypeError
  end.

Fixpoint mapM {A B} (f : A → result B) (l : list A) : result (list B) :=
  match l with
  | [] => Ok []
  | x :: l' => y ← f x; ys ← mapM f l'; Ok (y :: ys)
  end.

(** ** Python strings *)

Definition code (c : ascii) : N := N_of_ascii c.

(** [c.isdigit()] below 256: the decimal digits and the superscripts
    two, three and one. *)
Definition isdigit_char (c : ascii) : bool :=
  let n := code c in
  ((48 <=? n) && (n <=? 57) || (n =? 178) || (n =? 179) || (n =? 185))%N.

(** [c.isspace()] below 256 *)
Definition isspace_char (c : ascii) : bool :=
  let n := code c in
  ((9 <=? n) && (n <=? 13) || (28 <=? n) && (n <=? 32) || (n =? 133) || (n =? 160))%N.

Fixpoint forall_chars (p : ascii → bool) (s : string) : bool :=
  match s with
  | EmptyString => true
  | String c s' => p c && forall_chars p s'
  end.

(** [s.isdigit()]: at least one character, all of them digits *)
Definition isdigit (s : string) : bool :=
  match s with
  | EmptyString => false
  | _ => forall_chars isdigit_char s
  end.

(** [s.startswith(p)] *)
Definition startswith (p s : string) : bool := String.prefix p s.

Fixpoint lstrip (s : string) : string :=
  match s with
  | EmptyString => EmptyString
  | String c s' => if isspace_char c then lstrip s' else s
  end.

Definition rstrip (s : string) : string := String.rev (lstrip (String.rev s)).

(** [s.strip()] *)
Definition strip (s : string) : string := rstrip (lstrip s).

(** [s.replace(old, new)]: the occurrences of [old], found from the left
    and not overlapping, become [new].  [skip] counts the characters of a
    match still to drop. *)
Fixpoint replace_from (old new : string) (skip : nat) (s : string) : string :=
  match s with
  | EmptyString => EmptyString
  | String c s' =>
      match skip with
      | S k => replace_from old new k s'
      | O =>
          if String.prefix old s
          then new +:+ replace_from old new (Nat.pred (String.length old)) s'
          else String c (replace_from old new O s')
      end
  end.

Fixpoint intersperse_before (new : string) (s : string) : string :=
  match s with
  | EmptyString => new
  | String c s' => new +:+ String c (intersperse_before new s')
  end.

Definition replace (old new s : string) : string :=
  match old with
  | EmptyString => intersperse_before new s
  | _ => replace_from old new O s
  end.

(** ** [_is_tweet_id] *)

(** [_is_tweet_id(value)].  The argument is whatever the payload holds
    under "rest_id": a falsy value is refused, a str is tested, and any
    other truthy value has no [startswith]. *)
Definition _is_tweet_id (value : json) : result bool :=
  if negb (truthy value) then Ok false
  else match value with
       | JStr s =>
           if startswith "http" s then Ok false
           else Ok (isdigit s)
       | _ => Raise AttributeError
       end.

(** ** Post records *)

(** The permalink is kept as the arguments of its format string:
    [f"https://x.com/{screen_name}/status/{rest_id}"] when the handle is
    truthy, [f"https://x.com/i/status/{rest_id}"] otherwise. *)
Inductive permalink :=
| UserStatus (screen_name : json) (rest_id : string)
| IdStatus (rest_id : string).

Record tweet := mkTweet {
  tw_id : string;
  tw_text : string;
  tw_created_at : json;
  tw_author : json;
  tw_author_name : json;
  tw_author_id : json;
  tw_author_followers : json;
  tw_author_following : json;
  tw_author_verified : json;
  tw_likes : json;
  tw_retweets : json;
  tw_replies : json;
  tw_quotes : json;
  tw_bookmarks : json;
  tw_views : json;
  tw_tweet_type : string;
  tw_lang : json;
  tw_reply_to_id : json;
  tw_reply_to_user : json;
  tw_hashtags : list json;
  tw_mentions : list json;
  tw_urls : list json;
  tw_media : list (json * json);
  tw_url : permalink;
  tw_scraped_at : string
}.

(** ** [_find_user] *)

(** [obj.get(k1, {}).get(k2, {})...]: every link of the chain needs a
    dict. *)
Fixpoint get_path (keys : list string) (o : json) : result json :=
  match keys with
  | [] => Ok o
  | k :: ks => v ← py_get k (JObj []) o; get_path ks v
  end.

Definition user_paths : list (list string) :=
  [ ["core"; "user_results"; "result"; "legacy"];
    ["tweet"; "core"; "user_results"; "result"; "legacy"];
    ["user_results"; "result"; "legacy"];
    ["core"; "user_results"; "result"; "core"; "legacy"];
    ["user"; "legacy"] ].

(** [for c in candidates: if isinstance(c, dict) and c.get("screen_name")] *)
Fixpoint first_user (cs : list json) : option dict :=
  match cs with
  | [] => None
  | JObj d :: cs' =>
      if truthy (dict_get "screen_name" JNull d) then Some d else first_user cs'
  | _ :: cs' => first_user cs'
  end.

(** [for x in xs: result = f(x); if result: return result] *)
Definition find_first {A} (f : A → option dict) : list A → option dict :=
  fix go l :=
    match l with
    | [] => None
    | x :: l' =>
        match f x with
        | Some r => if truthy (JObj r) then Some r else go l'
        | None => go l'
        end
    end.

Definition looks_like_user (d : dict) : bool :=
  truthy (dict_get "screen_name" JNull d)
  && truthy (dict_get "name" JNull d)
  && negb (truthy (dict_get "full_text" JNull d)).

Fixpoint _deep_find (node : json) (depth : Z) : option dict :=
  if (6 <? depth)%Z then None
  else match node with
       | JObj d =>
           if looks_like_user d then Some d
           else find_first (λ kv : string * json, _deep_find kv.2 (depth + 1)) d
       | JArr l => find_first (λ item, _deep_find item (depth + 1)) l
       | _ => None
       end.

Definition _find_user (obj : dict) : result dict :=
  candidates ← mapM (λ p, get_path p (JObj obj)) user_paths;
  match first_user candidates with
  | Some c => Ok c
  | None =>
      match _deep_find (JObj obj) 0 with
      | Some deep => Ok (if truthy (JObj deep) then deep else [])
      | None => Ok []
      end
  end.

(** ** [_extract_tweets] *)

Definition is_none (v : json) : bool :=
  match v with JNull => true | _ => false end.

Definition py_strip (v : json) : result string :=
  match v with
  | JStr s => Ok (strip s)
  | _ => Raise AttributeError
  end.

Definition py_startswith (p : string) (v : json) : result bool :=
  match v with
  | JStr s => Ok (startswith p s)
  | _ => Raise AttributeError
  end.

(** [leg.get("full_text", leg.get("text", "")).strip()] *)
Definition candidate_text (leg : json) : result string :=
  dflt ← py_get "text" (JStr "") leg;
  t ← py_get "full_text" dflt leg;
  py_strip t.

(** The four-way tag of an accepted candidate. *)
Definition classify (obj : dict) (leg : json) : result string :=
  rs ← py_get "retweeted_status_result" JNull leg;
  ir ← py_get "in_reply_to_status_id_str" (JStr "") leg;
  let is_retweet := negb (is_none rs) in
  let is_quote := negb (is_none (dict_get "quoted_status_result" JNull obj)) in
  let is_reply := truthy ir in
  Ok (if is_retweet then "retweet"
        else if is_quote then "quote"
        else if is_reply then "reply"
        else "original").

(** The one-character string that holds a double quote. *)
Definition quote_mark : string := String "034"%char EmptyString.

Definition clean_text (text : string) : string :=
  replace "&quot;" quote_mark
    (replace "&gt;" ">" (replace "&lt;" "<" (replace "&amp;" "&" text))).

(** [leg.get("entities", {}).get(k, [])], iterated *)
Definition entity_list (k : string) (leg : json) : result (list json) :=
  e ← py_get "entities" (JObj []) leg;
  l ← py_get k (JArr []) e;
  py_iter l.

Fixpoint urls_of (l : list json) : result (list json) :=
  match l with
  | [] => Ok []
  | u :: l' =>
      e ← py_get "expanded_url" (JStr "") u;
      stub ← py_startswith "https://twitter.com/i/web" e;
      rest ← urls_of l';
      Ok (if (stub : bool) then rest else e :: rest)
  end.

Definition media_of (m : json) : result (json * json) :=
  ty ← py_get "type" (JStr "") m;
  u ← py_get "media_url_https" (JStr "") m;
  Ok (ty, u).

(** The record of an accepted candidate [obj] with identifier [rest_id]
    and stripped text [text]; [stamp] is what [datetime.now().isoformat()]
    returns at that moment. *)
Definition build_tweet (stamp : string) (obj : dict) (leg : json)
    (rest_id text : string) : result tweet :=
  user ← _find_user obj;
  tweet_type ← classify obj leg;
  let screen_name := dict_get "screen_name" (JStr "") user in
  created ← py_get "created_at" (JStr "") leg;
  likes ← py_get "favorite_count" (JNum 0) leg;
  retweets ← py_get "retweet_count" (JNum 0) leg;
  replies ← py_get "reply_count" (JNum 0) leg;
  quotes ← py_get "quote_count" (JNum 0) leg;
  bookmarks ← py_get "bookmark_count" (JNum 0) leg;
  views ← py_get "count" (JNum 0) (dict_get "views" (JObj []) obj);
  lang ← py_get "lang" (JStr "") leg;
  reply_to_id ← py_get "in_reply_to_status_id_str" (JStr "") leg;
  reply_to_user ← py_get "in_reply_to_screen_name" (JStr "") leg;
  hs ← entity_list "hashtags" leg;
  hashtags ← mapM (py_item "text") hs;
  ms ← entity_list "user_mentions" leg;
  mentions ← mapM (py_get "screen_name" (JStr "")) ms;
  us ← entity_list "urls" leg;
  urls ← urls_of us;
  md ← entity_list "media" leg;
  media ← mapM media_of md;
  Ok {| tw_id := rest_id;
          tw_text := clean_text text;
          tw_created_at := created;
          tw_author := screen_name;
          tw_author_name := dict_get "name" (JStr "") user;
          tw_author_id := dict_get "id_str" (JStr "") user;
          tw_author_followers := dict_get "followers_count" (JNum 0) user;
          tw_author_following := dict_get "friends_count" (JNum 0) user;
          tw_author_verified :=
            py_or (dict_get "verified" (JBool false) user)
                  (dict_get "is_blue_verified" (JBool false) user);
          tw_likes := likes;
          tw_retweets := retweets;
          tw_replies := replies;
          tw_quotes := quotes;
          tw_bookmarks := bookmarks;
          tw_views := views;
          tw_tweet_type := tweet_type;
          tw_lang := lang;
          tw_reply_to_id := reply_to_id;
          tw_reply_to_user := reply_to_user;
          tw_hashtags := hashtags;
          tw_mentions := mentions;
          tw_urls := urls;
          tw_media := media;
          tw_url := if truthy screen_name
                    then UserStatus screen_name rest_id
                    else IdStatus rest_id;
          tw_scraped_at := stamp |}.

(** The two locals of [_extract_tweets] that [walk] closes over. *)
Record wstate := mkW {
  tweets : list tweet;
  seen_ids : gset string
}.

Definition walk_each {A} (f : A → wstate → result wstate)
    : list A → wstate → result wstate :=
  fix go l st :=
    match l with
    | [] => Ok st
    | x :: l' => st' ← f x st; go l' st'
    end.

(** What the guard of [walk] decides about a candidate. *)
Inductive verdict :=
| Rejected
| Accepted (rest_id text : string).

Definition judge (obj : dict) : result verdict :=
  let rest_id := dict_get "rest_id" (JStr "") obj in
  let leg := dict_get "legacy" (JObj []) obj in
  text ← candidate_text leg;
  good ← _is_tweet_id rest_id;
  if negb (good : bool) || String.eqb text "" then Ok Rejected
  else match rest_id with
       | JStr rid => Ok (Accepted rid text)
       | _ => Raise TypeError
       end.

Section extraction.
(** [now k] is the clock reading of the [k]-th record built in a call. *)
Variable now : nat → string.

(** The inner function [walk] of [_extract_tweets], with its two locals
    [tweets] and [seen_ids] as a state.  The interpreter's recursion limit
    is not part of the model: on a payload nested deeper than the limit
    allows, Python raises [RecursionError] where this function goes on.  So
    nothing is concluded here from the function returning on a class of
    payloads; what is proved of a call that returns holds of the code. *)

Fixpoint walk (obj : json) (st : wstate) : result wstate :=
  match obj with
  | JObj d =>
      let children := walk_each (λ kv : string * json, walk kv.2) d in
      if has_key "legacy" d && has_key "rest_id" d then
        v ← judge d;
        match v with
        | Rejected => children st
        | Accepted rest_id text =>
            if decide (rest_id ∈ seen_ids st) then children st
            else
              tweet ← build_tweet (now (length (tweets st))) d
                        (dict_get "legacy" (JObj []) d) rest_id text;
              children {| tweets := tweets st ++ [tweet];
                          seen_ids := {[rest_id]} ∪ seen_ids st |}
        end
      else children st
  | JArr l => walk_each walk l st
  | _ => Ok st
  end.

Definition _extract_tweets (data : json) : result (list tweet) :=
  st ← walk data {| tweets := []; seen_ids := ∅ |};
  Ok (tweets st).
End extraction.


(** ** [_extract_user_profile] *)

Record profile := mkProfile {
  pf_username : json;
  pf_name : json;
  pf_id : json;
  pf_bio : json;
  pf_location : json;
  pf_url : json;
  pf_followers : json;
  pf_following : json;
  pf_tweet_count : json;
  pf_listed_count : json;
  pf_verified : json;
  pf_created_at : json;
  pf_profile_image : json;
  pf_profile_banner : json;
  pf_pinned_tweet_id : json;
  pf_scraped_at : string
}.

(** [v[0]] *)
Definition py_first (v : json) : result json :=
  match v with
  | JArr (x :: _) => Ok x
  | JArr [] => Raise IndexError
  | JStr (String c _) => Ok (JStr (String c EmptyString))
  | JStr EmptyString => Raise IndexError
  | JObj _ => Raise KeyError
  | _ => Raise TypeError
  end.

(** [leg.get("pinned_tweet_ids_str", [""])[0]
     if leg.get("pinned_tweet_ids_str") else ""] *)
Definition pinned_tweet_id (leg : dict) : result json :=
  if truthy (dict_get "pinned_tweet_ids_str" JNull leg)
  then py_first (dict_get "pinned_tweet_ids_str" (JArr [JStr ""]) leg)
  else Ok (JStr "").

Definition build_profile (stamp : string) (obj leg : dict) : result profile :=
  pinned ← pinned_tweet_id leg;
  Ok {| pf_username := dict_get "screen_name" (JStr "") leg;
        pf_name := dict_get "name" (JStr "") leg;
        pf_id := dict_get "rest_id" (JStr "") obj;
        pf_bio := dict_get "description" (JStr "") leg;
        pf_location := dict_get "location" (JStr "") leg;
        pf_url := dict_get "url" (JStr "") leg;
        pf_followers := dict_get "followers_count" (JNum 0) leg;
        pf_following := dict_get "friends_count" (JNum 0) leg;
        pf_tweet_count := dict_get "statuses_count" (JNum 0) leg;
        pf_listed_count := dict_get "listed_count" (JNum 0) leg;
        pf_verified :=
          py_or (dict_get "verified" (JBool false) leg)
                (dict_get "is_blue_verified" (JBool false) obj);
        pf_created_at := dict_get "created_at" (JStr "") leg;
        pf_profile_image := dict_get "profile_image_url_https" (JStr "") leg;
        pf_profile_banner := dict_get "profile_banner_url" (JStr "") leg;
        pf_pinned_tweet_id := pinned;
        pf_scraped_at := stamp |}.

(** [for x in xs: r = walk(x); if r: return r].  A profile record is a
    dict of sixteen keys, so [if r] only tests for [None]. *)
Definition first_profile {A} (f : A → result (option profile))
    : list A → result (option profile) :=
  fix go l :=
    match l with
    | [] => Ok None
    | x :: l' =>
        r ← f x;
        match r with
        | Some p => Ok (Some p)
        | None => go l'
        end
    end.

Section profile_extraction.
Variable now : nat → string.

Fixpoint walk_profile (obj : json) : result (option profile) :=
  match obj with
  | JObj d =>
      match dict_get "legacy" (JObj []) d with
      | JObj leg =>
          if truthy (dict_get "screen_name" JNull leg)
             && negb (truthy (dict_get "full_text" JNull leg))
          then p ← build_profile (now O) d leg; Ok (Some p)
          else first_profile (λ kv : string * json, walk_profile kv.2) d
      | _ => Raise AttributeError
      end
  | JArr l => first_profile walk_profile l
  | _ => Ok None
  end.

Definition _extract_user_profile (data : json) : result (option profile) :=
  walk_profile data.
End profile_extraction.

(** ** [ProxyQueue] *)

(** One record of the persisted proxy list, as the finder writes it: the
    "proxy" value, when there is one, is a string.  [None] is a missing
    key. *)
Record proxy_entry := mkEntry {
  entry_proxy : option string;
  entry_speed : option json
}.

Module ProxyQueue.

(** The value of [_stats[url]].  A [None] speed is the default 9.9; an
    elapsed time is a number of clock ticks. *)
Record stat := mkStat {
  st_speed : option json;
  st_success : bool;
  st_tweets : Z;
  st_elapsed : Z
}.

Record pool := mkPool {
  _q : list string;
  _stats : gmap string stat;
  _total_loaded : nat
}.

(** One turn of [for item in data] in [_load]. *)
Definition load_item (p : pool) (item : proxy_entry) : pool :=
  let url := default "" (entry_proxy item) in
  if negb (String.eqb url "") then
    {| _q := _q p ++ [url];
       _stats := <[url := {| st_speed := entry_speed item;
                             st_success := false;
                             st_tweets := 0;
                             st_elapsed := 0 |}]> (_stats p);
       _total_loaded := _total_loaded p |}
  else p.

(** [ProxyQueue(proxies_file)]; [file] is the decoded content of the
    file, [None] when the file does not exist. *)
Definition _load (file : option (list proxy_entry)) : result pool :=
  match file with
  | None => Raise FileNotFoundError
  | Some data =>
      let p := foldl load_item {| _q := []; _stats := ∅; _total_loaded := O |} data in
      Ok {| _q := _q p; _stats := _stats p; _total_loaded := length (_q p) |}
  end.

(** [get_nowait]: the head of the queue, or [None] at once. *)
Definition checkout (p : pool) : option string * pool :=
  match _q p with
  | [] => (None, p)
  | url :: rest =>
      (Some url, {| _q := rest; _stats := _stats p;
                    _total_loaded := _total_loaded p |})
  end.

Definition record (url : string) (success : bool) (tweets elapsed : Z)
    (p : pool) : pool :=
  match _stats p !! url with
  | Some s =>
      {| _q := _q p;
         _stats := <[url := {| st_speed := st_speed s;
                               st_success := success;
                               st_tweets := tweets;
                               st_elapsed := elapsed |}]> (_stats p);
         _total_loaded := _total_loaded p |}
  | None => p
  end.

Definition remaining (p : pool) : nat := length (_q p).

Definition total (p : pool) : nat := _total_loaded p.

Definition stat_values (p : pool) : list stat := (map_to_list (_stats p)).*2.

(** [used]: the records with a positive elapsed time. *)
Definition used (p : pool) : list stat :=
  filter (λ s, 0 < st_elapsed s) (stat_values p).

Definition succeeded (p : pool) : list stat :=
  filter (λ s, st_success s = true) (used p).

Definition raw_tweets (p : pool) : Z :=
  foldr Z.add 0 (st_tweets <$> used p).

Definition summary (p : pool) : string :=
  pretty (_total_loaded p) +:+ " proxies | "
  +:+ pretty (length (succeeded p)) +:+ "/" +:+ pretty (length (used p))
  +:+ " sessions ok | "
  +:+ pretty (raw_tweets p) +:+ " raw tweets".

(** The calls a client makes on one pool instance. *)
Inductive call :=
| CallCheckout
| CallRecord (url : string) (success : bool) (tweets elapsed : Z)
| CallRemaining
| CallTotal
| CallSummary.

(** The pool after a sequence of calls, with what every [checkout()] of
    the sequence returned. *)
Fixpoint run (calls : list call) (p : pool) : list (option string) * pool :=
  match calls with
  | [] => ([], p)
  | CallCheckout :: cs =>
      let '(r, p1) := checkout p in
      let '(rs, p2) := run cs p1 in
      (r :: rs, p2)
  | CallRecord url ok n e :: cs => run cs (record url ok n e p)
  | _ :: cs => run cs p
  end.

End ProxyQueue.

(** ** [HealthMonitor] *)

Module HealthMonitor.

Record monitor := mkMonitor {
  sessions_run : nat;
  sessions_ok : nat;
  total_tweets : Z;
  total_elapsed : Z
}.

Definition init : monitor :=
  {| sessions_run := O; sessions_ok := O; total_tweets := 0; total_elapsed := 0 |}.

Definition record (success : bool) (tweets elapsed : Z) (h : monitor) : monitor :=
  {| sessions_run := S (sessions_run h);
     sessions_ok := if success then S (sessions_ok h) else sessions_ok h;
     total_tweets := if success then total_tweets h + tweets else total_tweets h;
     total_elapsed := total_elapsed h + elapsed |}.

End HealthMonitor.

(** ** [Config] *)

(** The fields of [Config] that the scheduler and the scroll loop read.
    The bounds of the random pauses are not here: what [random.uniform]
    draws from them is an argument of [scrape]. *)
Record Config := mkConfig {
  max_parallel_sessions : Z;
  tweets_per_session : Z;
  max_scrolls_per_session : Z
}.

(** ** [StickySession.scrape] *)

Module StickySession.

(** What a session reads that others write: the process-wide
    [RATE_LIMITED] flag, and the bucket and profile that its response
    listener fills. *)
Record world := mkWorld {
  rate_limited : bool;
  _bucket : list tweet;
  _profile : option profile
}.

(** The calls of [scrape] during which others run: [time.sleep],
    [page.goto], and the [page.evaluate] that scrolls to the bottom. *)
Inductive action :=
| Sleep (ticks : Z)
| Goto (url : string)
| ScrollToBottom.

(** [env k a w]: what the [k]-th such call of the session, [a], started
    in world [w], leaves behind: the world when it is over, and the
    exception if it raised one. *)
Definition environment := nat → action → world → world * option exn.

(** The values [random.uniform] returns in one call of [scrape]. *)
Record draws := mkDraws {
  stagger : Z;
  page_load_pause : Z;
  scroll_pause : nat → Z
}.

(** The world, and the calls made so far, each with the world it began
    in. *)
Record run := mkRun {
  now_world : world;
  trace : list (action * world)
}.

Definition perform (env : environment) (a : action) (r : run) : option exn * run :=
  let go :=
    let '(w', e) := env (length (trace r)) a (now_world r) in
    (e, {| now_world := w'; trace := trace r ++ [(a, now_world r)] |}) in
  match a with
  | Sleep ticks => if (ticks <? 0)%Z then (Some ValueError, r) else go
  | _ => go
  end.

(** [for scroll_n in range(1, cap + 1)], with [left] turns to go and
    [turn] turns done.  A raised exception ends the loop as a [break]
    does: both reach the [return] of [scrape]. *)
Fixpoint scroll_loop (env : environment) (target : Z) (pause : nat → Z)
    (left turn : nat) (r : run) : run :=
  match left with
  | O => r
  | S left' =>
      if rate_limited (now_world r) then r
      else
        match perform env ScrollToBottom r with
        | (Some _, r1) => r1
        | (None, r1) =>
            match perform env (Sleep (pause turn)) r1 with
            | (Some _, r2) => r2
            | (None, r2) =>
                if (target <=? Z.of_nat (length (_bucket (now_world r2))))%Z
                then r2
                else scroll_loop env target pause left' (S turn) r2
            end
        end
  end.

Definition scrape_run (cfg : Config) (env : environment) (d : draws)
    (target_url : string) (w : world) : run :=
  let r0 := {| now_world := w; trace := [] |} in
  if rate_limited w then r0
  else
    match (if (0 <? stagger d)%Z then perform env (Sleep (stagger d)) r0
           else (None, r0)) with
    | (Some _, r1) => r1
    | (None, r1) =>
        if rate_limited (now_world r1) then r1
        else
          match perform env (Goto target_url) r1 with
          | (Some _, r2) => r2
          | (None, r2) =>
              match perform env (Sleep (page_load_pause d)) r2 with
              | (Some _, r3) => r3
              | (None, r3) =>
                  scroll_loop env (tweets_per_session cfg) (scroll_pause d)
                    (Z.to_nat (max_scrolls_per_session cfg)) O r3
              end
          end
    end.

(** [scrape(target_url)]: every path ends in
    [return list(self._bucket), self._profile]. *)
Definition scrape (cfg : Config) (env : environment) (d : draws)
    (target_url : string) (w : world)
    : (list tweet * option profile) * run :=
  let r := scrape_run cfg env d target_url w in
  ((_bucket (now_world r), _profile (now_world r)), r).

End StickySession.

(** ** [TwitterScraper] *)

Module TwitterScraper.

(** *** The merge at the end of [_parallel_scrape] *)

(** [for batch in all_batches: for tweet in batch:] with the two locals
    [seen] and [merged].  The identifier of a record is a str, so
    [if tid] asks whether it is empty. *)
Definition merge_step (acc : gset string * list tweet) (t : tweet)
    : gset string * list tweet :=
  let tid := tw_id t in
  if negb (String.eqb tid "") && negb (bool_decide (tid ∈ acc.1))
  then ({[tid]} ∪ acc.1, acc.2 ++ [t])
  else acc.

Definition merge_batches (all_batches : list (list tweet)) : list tweet :=
  (foldl (λ acc batch, foldl merge_step acc batch) (∅, []) all_batches).2.

(** [a < b] on two sort keys.  Two strings compare by code point, two
    numbers (a bool counts as 0 or 1) by value, and Python refuses the
    other pairs that can occur; two lists, which Python compares item by
    item, are outside the model and refused too. *)
Definition as_number (v : json) : option Z :=
  match v with
  | JNum n => Some n
  | JBool b => Some (if b then 1 else 0)
  | _ => None
  end.

Definition py_lt (a b : json) : result bool :=
  match a, b with
  | JStr s1, JStr s2 => Ok (String.ltb s1 s2)
  | _, _ =>
      match as_number a, as_number b with
      | Some x, Some y => Ok (x <? y)%Z
      | _, _ => Raise TypeError
      end
  end.

(** [merged.sort(key=lambda t: t.get("created_at", ""), reverse=True)].
    The sort is stable also with [reverse=True]: records with equal keys
    keep their order.  A stable sort has one possible result, so an
    insertion sort stands for it; the result is Python's whenever all keys
    are strings. *)
Fixpoint insert_desc (t : tweet) (sorted : list tweet) : result (list tweet) :=
  match sorted with
  | [] => Ok [t]
  | x :: rest =>
      below ← py_lt (tw_created_at t) (tw_created_at x);
      if (below : bool)
      then (rest' ← insert_desc t rest; Ok (x :: rest'))
      else Ok (t :: x :: rest)
  end.

Fixpoint sort_desc (l : list tweet) : result (list tweet) :=
  match l with
  | [] => Ok []
  | t :: l' => sorted ← sort_desc l'; insert_desc t sorted
  end.

(** [l[:limit]]: a negative limit counts from the end. *)
Definition slice_to {A} (limit : Z) (l : list A) : list A :=
  if (0 <=? limit)%Z then take (Z.to_nat limit) l
  else take (Z.to_nat (Z.of_nat (length l) + limit)) l.

(** [max(all_profiles, key=lambda p: p.get("followers", 0))]: the first
    profile with the largest key. *)
Fixpoint max_profile (best : profile) (rest : list profile) : result profile :=
  match rest with
  | [] => Ok best
  | p :: rest' =>
      above ← py_lt (pf_followers best) (pf_followers p);
      max_profile (if (above : bool) then p else best) rest'
  end.

Definition best_profile (all_profiles : list profile) : result (option profile) :=
  match all_profiles with
  | [] => Ok None
  | p :: rest => best ← max_profile p rest; Ok (Some best)
  end.

Record scrape_result := mkResult {
  res_tweets : list tweet;
  res_profile : option profile
}.

(** Lines 796 to 820: from the batches and profiles to the returned dict. *)
Definition merge_results (all_batches : list (list tweet))
    (all_profiles : list profile) (limit : Z) : result scrape_result :=
  merged ← sort_desc (merge_batches all_batches);
  best ← best_profile all_profiles;
  Ok {| res_tweets := slice_to limit merged; res_profile := best |}.

(** *** [_run_session] *)

Record scraper := mkScraper {
  pq : ProxyQueue.pool;
  health : HealthMonitor.monitor;
  _sid_counter : nat
}.

(** How the session of one task ends: [open()] returns [False]; or
    [scrape] returns a bucket and a profile and [close()] returns; or an
    exception escapes.  [elapsed] is [time.time() - t0] at that moment. *)
Inductive ending :=
| OpenFailed (elapsed : Z)
| Scraped (tweets : list tweet) (profile : option profile) (elapsed : Z)
| Crashed (elapsed : Z).

(** The first lines of [_run_session]: the checkout and the session id. *)
Definition begin_session (s : scraper) : option string * scraper :=
  let '(r, p) := ProxyQueue.checkout (pq s) in
  match r with
  | None => (None, {| pq := p; health := health s; _sid_counter := _sid_counter s |})
  | Some url =>
      (Some url, {| pq := p; health := health s;
                    _sid_counter := S (_sid_counter s) |})
  end.

Definition report (url : string) (success : bool) (tweets elapsed : Z)
    (s : scraper) : scraper :=
  {| pq := ProxyQueue.record url success tweets elapsed (pq s);
     health := HealthMonitor.record success tweets elapsed (health s);
     _sid_counter := _sid_counter s |}.

(** The rest of [_run_session], once the session on [url] has ended. *)
Definition end_session (url : string) (e : ending) (s : scraper)
    : (list tweet * option profile) * scraper :=
  match e with
  | OpenFailed elapsed => (([], None), report url false 0 elapsed s)
  | Scraped tweets profile elapsed =>
      ((tweets, profile),
       report url true (Z.of_nat (length tweets)) elapsed s)
  | Crashed elapsed => (([], None), report url false 0 elapsed s)
  end.

(** [_run_session(target_url)] when nothing else runs in between;
    [behave url] is the ending of the session on proxy [url]. *)
Definition _run_session (behave : string → ending) (s : scraper)
    : (list tweet * option profile) * scraper :=
  match begin_session s with
  | (None, s') => (([], None), s')
  | (Some url, s') => end_session url (behave url) s'
  end.

(** *** The worker pool of [_parallel_scrape] *)

(** The tasks in flight (each the proxy of its session), and what
    [for fut in as_completed(futures)] has collected. *)
Record pool_run := mkPoolRun {
  sc : scraper;
  running : list string;
  all_batches : list (list tweet);
  all_profiles : list profile
}.

Definition collect (r : list tweet * option profile) (s : scraper)
    (still : list string) (x : pool_run) : pool_run :=
  {| sc := s;
     running := still;
     all_batches := all_batches x ++ [r.1];
     all_profiles := all_profiles x ++ option_list r.2 |}.

(** The idle workers take the tasks that wait, in the order they were
    submitted.  A task whose checkout finds the queue empty is over at
    once. *)
Fixpoint start_tasks (n_workers : nat) (waiting : nat) (x : pool_run)
    : nat * pool_run :=
  match waiting with
  | O => (O, x)
  | S waiting' =>
      if (length (running x) <? n_workers)%nat then
        match begin_session (sc x) with
        | (None, s) =>
            start_tasks n_workers waiting' (collect ([], None) s (running x) x)
        | (Some url, s) =>
            start_tasks n_workers waiting'
              {| sc := s; running := running x ++ [url];
                 all_batches := all_batches x; all_profiles := all_profiles x |}
        end
      else (waiting, x)
  end.

(** The executor: idle workers start waiting tasks, then one of the
    sessions in flight ends, the one [choices] names, and its task
    completes.  [fuel] bounds the number of completions.  The results are
    collected in the order the sessions end, which is the order in which
    [as_completed] yields futures that finish while it waits; futures that
    had finished before it was entered are yielded in an order of its own.
    What is proved of a run is stated for some order of the queued proxies,
    or does not depend on the order. *)
Fixpoint run_tasks (behave : string → ending) (n_workers : nat)
    (fuel : nat) (choices : list nat) (waiting : nat) (x : pool_run)
    : nat * pool_run :=
  match fuel with
  | O => (waiting, x)
  | S fuel' =>
      let '(waiting1, x1) := start_tasks n_workers waiting x in
      match running x1 with
      | [] => (waiting1, x1)
      | first :: _ =>
          let i := (hd O choices mod length (running x1))%nat in
          let url := nth i (running x1) first in
          let '(r, s) := end_session url (behave url) (sc x1) in
          run_tasks behave n_workers fuel' (tl choices) waiting1
            (collect r s (delete i (running x1)) x1)
      end
  end.

(** [_parallel_scrape(target_url, label, limit)].  The [RATE_LIMITED]
    flag is left out: here it is cleared and then selects a log line. *)
Definition _parallel_scrape (cfg : Config) (behave : string → ending)
    (choices : list nat) (limit : Z) (s : scraper)
    : result scrape_result * scraper :=
  let n_proxies := ProxyQueue.remaining (pq s) in
  let n_workers := max_parallel_sessions cfg in
  if (n_proxies =? 0)%nat
  then (Ok {| res_tweets := []; res_profile := None |}, s)
  else if (n_workers <=? 0)%Z
  then (Raise ValueError, s)
  else
    let '(_, x) :=
      run_tasks behave (Z.to_nat n_workers) n_proxies choices n_proxies
        {| sc := s; running := []; all_batches := []; all_profiles := [] |} in
    (merge_results (all_batches x) (all_profiles x) limit, sc x).

(** [scrape_search] and the other public calls return this. *)
Definition scrape_tweets (cfg : Config) (behave : string → ending)
    (choices : list nat) (limit : Z) (s : scraper)
    : result (list tweet) * scraper :=
  let '(r, s') := _parallel_scrape cfg behave choices limit s in
  (rmap res_tweets r, s').

End TwitterScraper.

(** * The notions the properties are stated with *)

(** ** The walk of [_extract_tweets], as a relation between its states *)

(** [subnode n j]: [n] is [j] or sits somewhere below it, reached through
    list items and dict values. *)
Inductive subnode (n : json) : json → Prop :=
| subnode_here : subnode n n
| subnode_item l x : x ∈ l → subnode n x → subnode n (JArr l)
| subnode_value d kv : kv ∈ d → subnode n kv.2 → subnode n (JObj d).

(** A candidate post: a dict with both an identifier and a legacy body. *)
Definition candidate (d : dict) : bool :=
  has_key "legacy" d && has_key "rest_id" d.

Definition legacy_of (d : dict) : json := dict_get "legacy" (JObj []) d.

Section walk_relation.
Variable now : nat → string.

(** [t] is the record of the accepted candidate [d]. *)
Definition built_from (d : dict) (t : tweet) : Prop :=
  candidate d = true ∧
  ∃ rid text k,
    judge d = Ok (Accepted rid text) ∧
    build_tweet (now k) d (legacy_of d) rid text = Ok t.

(** [grows S st st']: the walk of the nodes in [S] took [st] to [st']. *)
Inductive grows (S : json → Prop) (st st' : wstate) : Prop :=
| Grows (new : list tweet)
    (Htweets : tweets st' = tweets st ++ new)
    (Hseen : seen_ids st' = seen_ids st ∪ list_to_set (tw_id <$> new))
    (Hnodup : NoDup (tw_id <$> new))
    (Hfresh : ∀ t, t ∈ new → tw_id t ∉ seen_ids st)
    (Hfrom : ∀ t, t ∈ new → ∃ d, S (JObj d) ∧ built_from d t)
    (Hstamp : ∀ i t, new !! i = Some t →
       tw_scraped_at t = now (length (tweets st) + i)%nat)
    (Hcovers : ∀ d rid text,
       S (JObj d) → candidate d = true → judge d = Ok (Accepted rid text) →
       rid ∈ seen_ids st').

End walk_relation.

(** [inked s]: some character of [s] is not white space. *)
Definition inked (s : string) : bool := negb (forall_chars isspace_char s).

Fixpoint drop_chars (n : nat) (s : string) : string :=
  match n, s with
  | O, _ => s
  | S k, String _ s' => drop_chars k s'
  | S _, EmptyString => EmptyString
  end.


(** The claims' words about one candidate [d] with legacy body [leg]:
    which references are present. *)
Definition has_retweeted_status (leg : dict) : bool :=
  negb (is_none (dict_get "retweeted_status_result" JNull leg)).

Definition has_quoted_status (d : dict) : bool :=
  negb (is_none (dict_get "quoted_status_result" JNull d)).

Definition has_reply_to (leg : dict) : bool :=
  truthy (dict_get "in_reply_to_status_id_str" (JStr "") leg).

(** The classification as the specification words it. *)
Definition spec_tag (d leg : dict) : string :=
  if has_retweeted_status leg then "retweet"
  else if has_quoted_status d then "quote"
  else if has_reply_to leg then "reply"
  else "original".

(** A record with its capture timestamp replaced. *)
Definition set_stamp (s : string) (t : tweet) : tweet :=
  {| tw_id := tw_id t;
     tw_text := tw_text t;
     tw_created_at := tw_created_at t;
     tw_author := tw_author t;
     tw_author_name := tw_author_name t;
     tw_author_id := tw_author_id t;
     tw_author_followers := tw_author_followers t;
     tw_author_following := tw_author_following t;
     tw_author_verified := tw_author_verified t;
     tw_likes := tw_likes t;
     tw_retweets := tw_retweets t;
     tw_replies := tw_replies t;
     tw_quotes := tw_quotes t;
     tw_bookmarks := tw_bookmarks t;
     tw_views := tw_views t;
     tw_tweet_type := tw_tweet_type t;
     tw_lang := tw_lang t;
     tw_reply_to_id := tw_reply_to_id t;
     tw_reply_to_user := tw_reply_to_user t;
     tw_hashtags := tw_hashtags t;
     tw_mentions := tw_mentions t;
     tw_urls := tw_urls t;
     tw_media := tw_media t;
     tw_url := tw_url t;
     tw_scraped_at := s |}.


(** Everything of a record but its capture timestamp. *)
Definition unstamped (t : tweet) : tweet := set_stamp "" t.


(** Sample payloads: a post, and a link-preview stub that wraps one. *)
Definition sample_post (rid body : string) (more : dict) : json :=
  JObj ([("rest_id", JStr rid); ("legacy", JObj [("full_text", JStr body)])] ++ more).

Definition sample_wrapper (inner : json) : json :=
  JObj [("rest_id", JStr "http://t.co/x"); ("legacy", JObj []); ("quoted", inner)].

Definition sample_clock (k : nat) : string := "2024-06-01T12:00:00".

(** A candidate whose record [walk] does not emit in state [st]: it is
    rejected by the guard, or its identifier is already in the seen-set. *)
Definition suppressed (d : dict) (st : wstate) : Prop :=
  candidate d = true ∧
  (judge d = Ok Rejected ∨
   ∃ rid text, judge d = Ok (Accepted rid text) ∧ rid ∈ seen_ids st).

Definition ghost_payload : json :=
  JArr [ sample_wrapper (sample_post "123" "  hi &amp; bye " []);
         sample_post "x9" "not a post" [];
         sample_post "77" "   " [];
         sample_post "123" "again" [("quoted", sample_post "456" "nested" [])] ].

Definition ghost_records : list tweet :=
  Eval vm_compute in
    match _extract_tweets sample_clock ghost_payload with
    | Ok out => out
    | Raise _ => []
    end.

Definition blank_tweet : tweet :=
  mkTweet "" "" JNull JNull JNull JNull JNull JNull JNull JNull JNull JNull
          JNull JNull JNull "" JNull JNull JNull [] [] [] [] (IdStatus "") "".

Definition ghost_first : tweet := Eval vm_compute in hd blank_tweet ghost_records.

(** A rejected wrapper around a valid post, followed by a candidate whose
    legacy body is [null]. *)
Definition null_legacy_payload : json :=
  JObj [ ("rest_id", JStr "http://t.co/x");
         ("legacy", JObj []);
         ("quoted", sample_post "123" "hi" []);
         ("card", JObj [("rest_id", JStr "9"); ("legacy", JNull)]) ].

(** A candidate that is at once a repost and a reply. *)
Definition repost_reply_payload : json :=
  JObj [ ("rest_id", JStr "2001");
         ("legacy", JObj [ ("full_text", JStr "RT @a: hello");
                           ("retweeted_status_result", JObj [("result", JObj [])]);
                           ("in_reply_to_status_id_str", JStr "1999") ]) ].

Definition repost_reply_record : tweet :=
  Eval vm_compute in
    match _extract_tweets sample_clock repost_reply_payload with
    | Ok out => hd blank_tweet out
    | Raise _ => blank_tweet
    end.

Definition later_clock (k : nat) : string := "2024-06-01T12:00:07".

(** The URLs of the entries of a proxy list that name one: the "proxy"
    key is there and its value is not the empty string. *)
Definition named_url (item : proxy_entry) : option string :=
  match entry_proxy item with
  | Some url => if String.eqb url "" then None else Some url
  | None => None
  end.

Definition loaded_urls (data : list proxy_entry) : list string :=
  omap named_url data.

(** What the checkouts of a sequence of calls handed out. *)
Definition handed_out (outs : list (option string)) : list string :=
  omap (λ r : option string, r) outs.

Definition sample_proxy_list : list proxy_entry :=
  [ mkEntry (Some "http://10.0.0.1:8080") (Some (JNum 2));
    mkEntry None (Some (JNum 1));
    mkEntry (Some "") None;
    mkEntry (Some "socks5://10.0.0.2:1080") None ].

Definition sample_pool : ProxyQueue.pool :=
  Eval vm_compute in
    match ProxyQueue._load (Some sample_proxy_list) with
    | Ok p => p
    | Raise _ => ProxyQueue.mkPool [] ∅ O
    end.

Definition sample_calls : list ProxyQueue.call :=
  [ ProxyQueue.CallCheckout;
    ProxyQueue.CallRecord "http://10.0.0.1:8080" false 0 3;
    ProxyQueue.CallRemaining;
    ProxyQueue.CallCheckout;
    ProxyQueue.CallRecord "socks5://10.0.0.2:1080" true 9 12;
    ProxyQueue.CallCheckout;
    ProxyQueue.CallSummary;
    ProxyQueue.CallCheckout ].

(** A proxy list that names one URL twice. *)
Definition repeated_proxy_list : list proxy_entry :=
  [ mkEntry (Some "http://10.0.0.1:8080") (Some (JNum 1));
    mkEntry (Some "http://10.0.0.2:8080") (Some (JNum 2));
    mkEntry (Some "http://10.0.0.1:8080") (Some (JNum 7)) ].

Definition repeated_pool : ProxyQueue.pool :=
  Eval vm_compute in
    match ProxyQueue._load (Some repeated_proxy_list) with
    | Ok p => p
    | Raise _ => ProxyQueue.mkPool [] ∅ O
    end.

(** A stats record as [_load] writes it. *)
Definition fresh_stat (s : ProxyQueue.stat) : Prop :=
  ProxyQueue.st_success s = false ∧ ProxyQueue.st_tweets s = 0 ∧
  ProxyQueue.st_elapsed s = 0.

(** A navigation or a scroll step, as opposed to a pause. *)
Definition drives_page (a : StickySession.action) : bool :=
  match a with
  | StickySession.Sleep _ => false
  | _ => true
  end.

(** A call that drives the page began with the rate-limit signal clear. *)
Definition began_clear (step : StickySession.action * StickySession.world) : Prop :=
  drives_page step.1 = true → StickySession.rate_limited step.2 = false.

Definition sample_config : Config := mkConfig 2 50 5.

Definition sample_draws : StickySession.draws :=
  StickySession.mkDraws 4 3 (λ _, 2).

(** A run in which the listener buffers one record during the navigation
    and the signal is set during the second scroll step. *)
Definition tripping_env : StickySession.environment :=
  λ k a w,
    match a with
    | StickySession.Goto _ =>
        (StickySession.mkWorld (StickySession.rate_limited w)
           (StickySession._bucket w ++ [ghost_first])
           (StickySession._profile w), None)
    | StickySession.ScrollToBottom =>
        if (k <? 5)%nat then (w, None)
        else (StickySession.mkWorld true (StickySession._bucket w)
                (StickySession._profile w), None)
    | StickySession.Sleep _ => (w, None)
    end.

(** A run in which the signal is set during the stagger sleep. *)
Definition stagger_trip_env : StickySession.environment :=
  λ k a w,
    (StickySession.mkWorld true (StickySession._bucket w)
       (StickySession._profile w), None).

Definition idle_world : StickySession.world :=
  StickySession.mkWorld false [] None.

(** *** The merge, in the words of the specification *)

(** The records of [l] whose identifier is neither in [seen] nor carried
    by an earlier record of [l]. *)
Fixpoint unseen (seen : list string) (l : list tweet) : list tweet :=
  match l with
  | [] => []
  | t :: l' =>
      if bool_decide (tw_id t ∈ seen) then unseen seen l'
      else t :: unseen (tw_id t :: seen) l'
  end.

(** The first occurrence of each post identifier. *)
Definition first_occurrences (l : list tweet) : list tweet := unseen [] l.

(** The creation timestamp, when it is a string. *)
Definition created (t : tweet) : string :=
  match tw_created_at t with
  | JStr s => s
  | _ => ""
  end.

Definition well_dated (t : tweet) : Prop := ∃ s, tw_created_at t = JStr s.

(** [a] may stand before [b] in a list sorted by descending creation
    timestamp. *)
Definition not_older (a b : tweet) : Prop := String.le (created b) (created a).

Definition dated_post (rid stamp captured : string) : tweet :=
  mkTweet rid "post" (JStr stamp) JNull JNull JNull JNull JNull JNull JNull
          JNull JNull JNull JNull JNull "original" JNull JNull JNull
          [] [] [] [] (IdStatus rid) captured.

Definition sample_batches : list (list tweet) :=
  [ [ dated_post "1001" "2024-01-01T00:00:00" "2024-07-01T10:00:00";
      dated_post "1002" "2024-06-01T00:00:00" "2024-07-01T10:00:01" ];
    [];
    [ dated_post "1003" "2024-03-01T00:00:00" "2024-07-01T10:00:05";
      dated_post "1001" "2024-01-01T00:00:00" "2024-07-01T10:00:06" ] ].

(** *** The effect of a run of the worker pool, session by session *)

(** What the task of a session with ending [e] returns, and what it
    reports to the pool. *)
Definition ending_result (e : TwitterScraper.ending) : list tweet * option profile :=
  match e with
  | TwitterScraper.Scraped tweets profile _ => (tweets, profile)
  | _ => ([], None)
  end.

Definition ending_elapsed (e : TwitterScraper.ending) : Z :=
  match e with
  | TwitterScraper.OpenFailed elapsed => elapsed
  | TwitterScraper.Scraped _ _ elapsed => elapsed
  | TwitterScraper.Crashed elapsed => elapsed
  end.

Definition ending_ok (e : TwitterScraper.ending) : bool :=
  match e with
  | TwitterScraper.Scraped _ _ _ => true
  | _ => false
  end.

Definition ending_count (e : TwitterScraper.ending) : Z :=
  Z.of_nat (length (ending_result e).1).

(** [_stats] after [record(url, ...)]. *)
Definition record_stats (url : string) (e : TwitterScraper.ending)
    (m : gmap string ProxyQueue.stat) : gmap string ProxyQueue.stat :=
  match m !! url with
  | Some st =>
      <[url := ProxyQueue.mkStat (ProxyQueue.st_speed st) (ending_ok e)
                 (if ending_ok e then ending_count e else 0)
                 (ending_elapsed e)]> m
  | None => m
  end.

Section settled.
Variable behave : string → TwitterScraper.ending.
Variable s0 : TwitterScraper.scraper.

(** The scraper once the sessions on the proxies [finished] have ended,
    in that order, and [k] proxies have been checked out. *)
Definition settled (k : nat) (finished : list string) : TwitterScraper.scraper :=
  {| TwitterScraper.pq :=
       {| ProxyQueue._q := drop k (ProxyQueue._q (TwitterScraper.pq s0));
          ProxyQueue._stats :=
            foldl (λ m url, record_stats url (behave url) m)
                  (ProxyQueue._stats (TwitterScraper.pq s0)) finished;
          ProxyQueue._total_loaded :=
            ProxyQueue._total_loaded (TwitterScraper.pq s0) |};
     TwitterScraper.health :=
       foldl (λ h url,
                HealthMonitor.record (ending_ok (behave url))
                  (if ending_ok (behave url) then ending_count (behave url) else 0)
                  (ending_elapsed (behave url)) h)
             (TwitterScraper.health s0) finished;
     TwitterScraper._sid_counter := (TwitterScraper._sid_counter s0 + k)%nat |}.

(** The pool run when [k] proxies have been checked out, the sessions on
    [finished] have ended in that order, and those on [inflight] run. *)
Definition pool_at (k : nat) (finished inflight : list string)
    : TwitterScraper.pool_run :=
  {| TwitterScraper.sc := settled k finished;
     TwitterScraper.running := inflight;
     TwitterScraper.all_batches := (λ url, (ending_result (behave url)).1) <$> finished;
     TwitterScraper.all_profiles := omap (λ url, (ending_result (behave url)).2) finished |}.
End settled.




Definition empty_scraper : TwitterScraper.scraper :=
  TwitterScraper.mkScraper (ProxyQueue.mkPool [] ∅ O) HealthMonitor.init O.

Definition no_session (url : string) : TwitterScraper.ending :=
  TwitterScraper.Crashed 0.




(** *** The end-to-end scenario: three proxies, parallelism two *)

Definition scenario_proxies : list proxy_entry :=
  [ mkEntry (Some "http://10.0.0.1:8080") (Some (JNum 1));
    mkEntry (Some "http://10.0.0.2:8080") (Some (JNum 2));
    mkEntry (Some "http://10.0.0.3:8080") (Some (JNum 3)) ].

Definition scenario_pool : ProxyQueue.pool :=
  Eval vm_compute in
    match ProxyQueue._load (Some scenario_proxies) with
    | Ok p => p
    | Raise _ => ProxyQueue.mkPool [] ∅ O
    end.

Definition scenario_scraper : TwitterScraper.scraper :=
  TwitterScraper.mkScraper scenario_pool HealthMonitor.init O.

Definition scenario_five : list tweet :=
  [ dated_post "101" "2024-05-01T00:00:00" "2024-07-01T10:00:00";
    dated_post "102" "2024-05-02T00:00:00" "2024-07-01T10:00:00";
    dated_post "103" "2024-05-03T00:00:00" "2024-07-01T10:00:00";
    dated_post "104" "2024-05-04T00:00:00" "2024-07-01T10:00:00";
    dated_post "105" "2024-05-05T00:00:00" "2024-07-01T10:00:00" ].

Definition scenario_seven : list tweet :=
  [ dated_post "201" "2024-04-01T00:00:00" "2024-07-01T10:00:09";
    dated_post "202" "2024-04-02T00:00:00" "2024-07-01T10:00:09";
    dated_post "203" "2024-04-03T00:00:00" "2024-07-01T10:00:09";
    dated_post "204" "2024-04-04T00:00:00" "2024-07-01T10:00:09";
    dated_post "205" "2024-04-05T00:00:00" "2024-07-01T10:00:09";
    dated_post "206" "2024-04-06T00:00:00" "2024-07-01T10:00:09";
    dated_post "207" "2024-04-07T00:00:00" "2024-07-01T10:00:09" ].

(** The session on the second proxy fails at [open()], three ticks after
    its task took the clock. *)
Definition scenario_behave (url : string) : TwitterScraper.ending :=
  if String.eqb url "http://10.0.0.1:8080"
  then TwitterScraper.Scraped scenario_five None 40
  else if String.eqb url "http://10.0.0.2:8080"
  then TwitterScraper.OpenFailed 3
  else TwitterScraper.Scraped scenario_seven None 55.

(** *** Runs for the merge *)

(** What the tasks of a run collected: the buffers and the profiles of
    the sessions on the proxies [order], in that order. *)
Definition buffers_of (behave : string → TwitterScraper.ending)
    (order : list string) : list (list tweet) :=
  (λ url, (ending_result (behave url)).1) <$> order.

Definition profiles_of (behave : string → TwitterScraper.ending)
    (order : list string) : list profile :=
  omap (λ url, (ending_result (behave url)).2) order.

(** The three sessions of the scenario return the three sample buffers. *)
Definition batches_behave (url : string) : TwitterScraper.ending :=
  if String.eqb url "http://10.0.0.1:8080"
  then TwitterScraper.Scraped (nth 0 sample_batches []) None 40
  else if String.eqb url "http://10.0.0.2:8080"
  then TwitterScraper.Scraped (nth 1 sample_batches []) None 10
  else TwitterScraper.Scraped (nth 2 sample_batches []) None 55.

(** Two posts, the second without a creation timestamp. *)
Definition undated_payload : json :=
  JArr [ JObj [ ("rest_id", JStr "1");
                ("legacy", JObj [ ("full_text", JStr "dated");
                                  ("created_at", JStr "Mon Jan 01") ]) ];
         JObj [ ("rest_id", JStr "2");
                ("legacy", JObj [ ("full_text", JStr "undated");
                                  ("created_at", JNull) ]) ] ].

Definition undated_records : list tweet :=
  Eval vm_compute in
    match _extract_tweets sample_clock undated_payload with
    | Ok out => out
    | Raise _ => []
    end.

(** Every session buffers the two records of [undated_payload]. *)
Definition undated_behave (url : string) : TwitterScraper.ending :=
  TwitterScraper.Scraped undated_records None 40.

(** * More of the code *)

(** ** The response listener of [_attach_interceptor] *)

(** [pat in s] on two strings *)
Fixpoint contains (pat s : string) : bool :=
  String.prefix pat s
  || match s with
     | EmptyString => false
     | String _ s' => contains pat s'
     end.

Definition INTERCEPT_PATTERNS : list string :=
  [ "SearchTimeline"; "UserTweets"; "UserTweetsAndReplies"; "TweetDetail";
    "HomeTimeline"; "HomeLatestTimeline"; "Likes"; "Bookmarks";
    "ListLatestTweetsTimeline"; "graphql" ].

Definition USER_PROFILE_PATTERNS : list string :=
  [ "UserByScreenName"; "UserByRestId" ].

(** [any(pat in url for pat in patterns)] *)
Definition any_in (patterns : list string) (url : string) : bool :=
  existsb (λ pat, contains pat url) patterns.

(** What the listener reads of a response; [resp_json] is what
    [resp.json()] returns or raises. *)
Record response := mkResponse {
  resp_status : Z;
  resp_url : string;
  resp_json : result json
}.

(** [err.get("code", 0) == 88] on a decoded value *)
Definition is_88 (v : json) : bool :=
  match v with
  | JNum n => (n =? 88)%Z
  | _ => false
  end.

(** [for err in data.get("errors", []): if err.get("code", 0) == 88]:
    whether the loop reaches an error with code 88. *)
Fixpoint has_code_88 (errors : list json) : result bool :=
  match errors with
  | [] => Ok false
  | err :: rest =>
      code ← py_get "code" (JNum 0) err;
      if is_88 code then Ok true else has_code_88 rest
  end.

(** The rate-limit test on a decoded body, made on a dict only. *)
Definition body_rate_limited (data : json) : result bool :=
  match data with
  | JObj d => errors ← py_iter (dict_get "errors" (JArr []) d); has_code_88 errors
  | _ => Ok false
  end.

Definition set_rate_limited (w : StickySession.world) : StickySession.world :=
  StickySession.mkWorld true (StickySession._bucket w) (StickySession._profile w).

(** The [try] block of the profile branch; [None] is what the
    [except Exception: pass] leaves. *)
Definition profile_branch (now : nat → string) (resp : response)
    (w : StickySession.world) : StickySession.world :=
  match (data ← resp_json resp; _extract_user_profile now data) with
  | Ok (Some profile) =>
      match StickySession._profile w with
      | None =>
          StickySession.mkWorld (StickySession.rate_limited w)
            (StickySession._bucket w) (Some profile)
      | Some _ => w
      end
  | _ => w
  end.

(** The [try] block of the tweet branch. *)
Definition tweet_branch (now : nat → string) (resp : response)
    (w : StickySession.world) : StickySession.world :=
  match resp_json resp with
  | Ok data =>
      match body_rate_limited data with
      | Ok true => set_rate_limited w
      | Ok false =>
          match _extract_tweets now data with
          | Ok out =>
              StickySession.mkWorld (StickySession.rate_limited w)
                (StickySession._bucket w ++ out) (StickySession._profile w)
          | Raise _ => w
          end
      | Raise _ => w
      end
  | Raise _ => w
  end.

(** [on_response(resp)]; [now] is the clock during this call. *)
Definition on_response (now : nat → string) (resp : response)
    (w : StickySession.world) : StickySession.world :=
  if (resp_status resp =? 429)%Z
     && (contains "twitter.com" (resp_url resp) || contains "x.com" (resp_url resp))
  then set_rate_limited w
  else if any_in USER_PROFILE_PATTERNS (resp_url resp)
  then profile_branch now resp w
  else if negb (any_in INTERCEPT_PATTERNS (resp_url resp))
  then w
  else tweet_branch now resp w.

(** The listener over the responses of a session, each with its clock. *)
Definition listen (events : list ((nat → string) * response))
    (w : StickySession.world) : StickySession.world :=
  foldl (λ w ev, on_response ev.1 ev.2 w) w events.

(** ** Notions for the walks *)

(** [below n k j]: [n] sits exactly [k] levels below [j]. *)
Inductive below (n : json) : nat → json → Prop :=
| below_here : below n O n
| below_item k l x : x ∈ l → below n k x → below n (S k) (JArr l)
| below_value k d kv : kv ∈ d → below n k kv.2 → below n (S k) (JObj d).

Definition is_amp (c : ascii) : bool := (code c =? 38)%N.

(** No character of [s] is an ampersand. *)
Definition amp_free (s : string) : bool := forall_chars (λ c, negb (is_amp c)) s.

(** A tweet node whose author sits seven levels down, and one whose
    author sits eight levels down. *)
Fixpoint wrap_in (n : nat) (inner : json) : json :=
  match n with
  | O => inner
  | S k => JObj [("w", wrap_in k inner)]
  end.

Definition sample_author : dict :=
  [("screen_name", JStr "ann"); ("name", JStr "Ann")].

Definition authored_post (levels : nat) : json :=
  JObj [ ("rest_id", JStr "300");
         ("legacy", JObj [("full_text", JStr "deep")]);
         ("extra", wrap_in levels (JObj sample_author)) ].

Definition profile_payload : json :=
  JObj [ ("data", JObj [ ("user", JObj [ ("result",
           JObj [ ("rest_id", JStr "42");
                  ("legacy", JObj [ ("screen_name", JStr "ann");
                                    ("followers_count", JNum 10) ]) ]) ]) ]) ].

(** A record with a non-empty identifier made of digits. *)
Definition numeric_id (t : tweet) : Prop := isdigit (tw_id t) = true ∧ tw_id t ≠ "".

Definition timeline_response : response :=
  mkResponse 200 "https://x.com/i/api/graphql/abc123/UserTweets?variables=x"
    (Ok ghost_payload).

Definition profile_response : response :=
  mkResponse 200 "https://x.com/i/api/graphql/xyz789/UserByScreenName?variables=x"
    (Ok (JArr [profile_payload; sample_post "555" "a post" []])).

Definition limited_response : response :=
  mkResponse 200 "https://x.com/i/api/graphql/abc123/UserTweets?variables=x"
    (Ok (JObj [ ("errors", JArr [JObj [("code", JNum 88)]]);
                ("data", sample_post "777" "late" []) ])).

Definition broken_response : response :=
  mkResponse 200 "https://x.com/i/api/graphql/abc123/UserTweets?variables=x"
    (Ok null_legacy_payload).

(** ** Notions for the calls of a session *)

Section session_chain.
Variable env : StickySession.environment.

(** The world that the calls of [tr] leave, when the first of them is
    the [k]-th call of the session and begins in [w]. *)
Fixpoint end_world (k : nat) (w : StickySession.world)
    (tr : list (StickySession.action * StickySession.world)) : StickySession.world :=
  match tr with
  | [] => w
  | (a, w1) :: rest => end_world (S k) (env k a w1).1 rest
  end.

(** Each call of [tr] begins in the world the call before it left, and
    each of them returns. *)
Fixpoint all_return (k : nat) (w : StickySession.world)
    (tr : list (StickySession.action * StickySession.world)) : Prop :=
  match tr with
  | [] => True
  | (a, w1) :: rest =>
      w1 = w ∧ (env k a w1).2 = None ∧ all_return (S k) (env k a w1).1 rest
  end.

(** The same, but the last call may raise. *)
Fixpoint follows (k : nat) (w : StickySession.world)
    (tr : list (StickySession.action * StickySession.world)) : Prop :=
  match tr with
  | [] => True
  | (a, w1) :: rest =>
      w1 = w ∧ (rest ≠ [] → (env k a w1).2 = None)
      ∧ follows (S k) (env k a w1).1 rest
  end.
End session_chain.

(** The worlds in which the scroll steps of a trace began. *)
Definition scroll_starts (tr : list (StickySession.action * StickySession.world))
    : list StickySession.world :=
  omap (λ step, match step.1 with
                | StickySession.ScrollToBottom => Some step.2
                | _ => None
                end) tr.

Definition navigations (tr : list (StickySession.action * StickySession.world))
    : list string :=
  omap (λ step, match step.1 with
                | StickySession.Goto url => Some url
                | _ => None
                end) tr.

(** Fewer than [target] records are buffered in [w]. *)
Definition short_of (target : Z) (w : StickySession.world) : Prop :=
  (Z.of_nat (length (StickySession._bucket w)) < target)%Z.

(** A navigation that times out. *)
Definition timeout_env : StickySession.environment :=
  λ k a w,
    match a with
    | StickySession.Goto _ => (w, Some TimeoutError)
    | _ => (w, None)
    end.

(** Every call buffers one record and returns. *)
Definition filling_env : StickySession.environment :=
  λ k a w,
    (StickySession.mkWorld (StickySession.rate_limited w)
       (StickySession._bucket w ++ [ghost_first])
       (StickySession._profile w), None).

(** ** [scrape_user] and [scrape_multiple_users] *)

(** [f"https://x.com/{username}{tab}"] *)
Definition user_url (username : string) (include_replies : bool) : string :=
  "https://x.com/" +:+ username
  +:+ (if include_replies then "/with_replies" else "").

(** [scrape_user(username, limit, include_replies)].  How a session ends
    depends on the page it is sent to: [behave target_url proxy_url]. *)
Definition scrape_user (cfg : Config)
    (behave : string → string → TwitterScraper.ending) (choices : list nat)
    (username : string) (limit : Z) (include_replies : bool)
    (s : TwitterScraper.scraper)
    : result TwitterScraper.scrape_result * TwitterScraper.scraper :=
  TwitterScraper._parallel_scrape cfg
    (behave (user_url username include_replies)) choices limit s.

(** [for username in usernames: results[username] = self.scrape_user(...)].
    [choices] gives the completion order of each call in turn. *)
Fixpoint multiple_users_loop (cfg : Config)
    (behave : string → string → TwitterScraper.ending)
    (choices : list (list nat)) (usernames : list string) (tweets_per_user : Z)
    (results : gmap string TwitterScraper.scrape_result)
    (s : TwitterScraper.scraper)
    : result (gmap string TwitterScraper.scrape_result) * TwitterScraper.scraper :=
  match usernames with
  | [] => (Ok results, s)
  | username :: rest =>
      match scrape_user cfg behave (hd [] choices) username tweets_per_user
              false s with
      | (Ok data, s') =>
          multiple_users_loop cfg behave (tl choices) rest tweets_per_user
            (<[username := data]> results) s'
      | (Raise e, s') => (Raise e, s')
      end
  end.

Definition scrape_multiple_users (cfg : Config)
    (behave : string → string → TwitterScraper.ending)
    (choices : list (list nat)) (usernames : list string) (tweets_per_user : Z)
    (s : TwitterScraper.scraper)
    : result (gmap string TwitterScraper.scrape_result) * TwitterScraper.scraper :=
  multiple_users_loop cfg behave choices usernames tweets_per_user ∅ s.

(** ** Notions for the merge and the pool *)

Definition empty_result : TwitterScraper.scrape_result :=
  TwitterScraper.mkResult [] None.


Definition sample_profile (name : string) (followers : Z) : profile :=
  mkProfile (JStr name) JNull JNull JNull JNull JNull (JNum followers) JNull
            JNull JNull JNull JNull JNull JNull JNull "2024-07-01T10:00:00".

(** Every session on the first page returns the five posts of the
    scenario; on any other page, the seven. *)
Definition page_behave (target_url proxy_url : string) : TwitterScraper.ending :=
  if String.eqb target_url "https://x.com/ann"
  then TwitterScraper.Scraped scenario_five None 40
  else TwitterScraper.Scraped scenario_seven None 55.
(** * Properties *)

(** ** Facts about the string operations *)

Lemma forall_chars_app p s1 s2 :
  forall_chars p (s1 +:+ s2) = forall_chars p s1 && forall_chars p s2.
Proof.
  induction s1 as [|c s1 IH]; simpl; [done|]. by rewrite IH, andb_assoc.
Qed.

Lemma forall_chars_rev_app p s1 s2 :
  forall_chars p (String.rev_app s1 s2) = forall_chars p s1 && forall_chars p s2.
Proof.
  revert s2. induction s1 as [|c s1 IH]; intros s2; simpl; [done|].
  rewrite IH. simpl. by destruct (p c), (forall_chars p s1), (forall_chars p s2).
Qed.

Lemma inked_rev s : inked (String.rev s) = inked s.
Proof.
  unfold inked, String.rev. rewrite forall_chars_rev_app. simpl.
  by rewrite andb_true_r.
Qed.

Lemma inked_nonempty s : inked s = true → s ≠ "".
Proof. by intros H ->. Qed.

Lemma lstrip_inked s : lstrip s ≠ "" → inked (lstrip s) = true.
Proof.
  induction s as [|c s IH]; simpl; [done|].
  destruct (isspace_char c) eqn:Hc; [done|]. intros _.
  unfold inked. simpl. by rewrite Hc.
Qed.

Lemma inked_lstrip s : inked s = true → inked (lstrip s) = true.
Proof.
  unfold inked. induction s as [|c s IH]; simpl; [done|].
  destruct (isspace_char c) eqn:Hc; simpl; [done|]. by rewrite Hc.
Qed.

Lemma rev_nonempty s : String.rev s ≠ "" → s ≠ "".
Proof. by intros H ->. Qed.

(** A stripped string that is not empty has ink, and a string with ink
    does not strip to the empty string. *)
Lemma strip_inked s : strip s ≠ "" → inked (strip s) = true.
Proof.
  unfold strip, rstrip. intros H. rewrite inked_rev.
  apply lstrip_inked. by apply rev_nonempty.
Qed.

Lemma inked_strip s : inked s = true → strip s ≠ "".
Proof.
  intros H. apply inked_nonempty. unfold strip, rstrip.
  rewrite inked_rev. apply inked_lstrip. rewrite inked_rev.
  by apply inked_lstrip.
Qed.

Lemma inked_app_l s1 s2 : inked s1 = true → inked (s1 +:+ s2) = true.
Proof.
  unfold inked. rewrite forall_chars_app.
  by destruct (forall_chars isspace_char s1).
Qed.

Lemma replace_from_inked old new s :
  inked new = true →
  ∀ skip, inked (drop_chars skip s) = true →
          inked (replace_from old new skip s) = true.
Proof.
  intros Hnew. induction s as [|c s IH]; intros skip Hs.
  - by destruct skip.
  - destruct skip as [|k]; cbn -[String.prefix] in *; [|by apply IH].
    destruct (String.prefix old (String c s)); [by apply inked_app_l|].
    unfold inked in *. cbn -[isspace_char] in *.
    destruct (isspace_char c); cbn in *; [|done]. by apply (IH O).
Qed.

Lemma replace_inked old new s :
  inked new = true → inked s = true → inked (replace old new s) = true.
Proof.
  intros Hnew Hs. destruct old as [|c old].
  - simpl. destruct s; simpl; [done|by apply inked_app_l].
  - by apply replace_from_inked.
Qed.

Lemma clean_text_inked text : inked text = true → inked (clean_text text) = true.
Proof.
  intros H. unfold clean_text. by repeat apply replace_inked.
Qed.

Lemma is_tweet_id_true v :
  _is_tweet_id v = Ok true →
  ∃ s, v = JStr s ∧ isdigit s = true ∧ s ≠ "" ∧ startswith "http" s = false.
Proof.
  unfold _is_tweet_id. destruct (truthy v) eqn:Ht; simpl; [|done].
  destruct v as [| | |s| |]; try done.
  destruct (startswith "http" s) eqn:Hp; [done|]. intros [= Hd].
  exists s. split_and!; try done. by intros ->.
Qed.

Lemma judge_accepted d rid text :
  judge d = Ok (Accepted rid text) →
  dict_get "rest_id" (JStr "") d = JStr rid ∧
  _is_tweet_id (JStr rid) = Ok true ∧
  candidate_text (legacy_of d) = Ok text ∧ text ≠ "".
Proof.
  unfold judge, mbind, result_bind. fold (legacy_of d).
  destruct (candidate_text (legacy_of d)) as [body|] eqn:Hb; simpl; [|done].
  destruct (_is_tweet_id (dict_get "rest_id" (JStr "") d)) as [good|] eqn:Hg;
    simpl; [|done].
  destruct good; simpl; [|done].
  destruct (String.eqb_spec body ""); [done|].
  destruct (is_tweet_id_true _ Hg) as (s & Hs & _). rewrite Hs in *.
  intros [= <- <-]. done.
Qed.

Lemma candidate_text_stripped leg text :
  candidate_text leg = Ok text → ∃ raw, text = strip raw.
Proof.
  unfold candidate_text, mbind, result_bind.
  destruct (py_get "text" (JStr "") leg) as [dflt|]; simpl; [|done].
  destruct (py_get "full_text" dflt leg) as [t|]; simpl; [|done].
  destruct t; simpl; try done. intros [= <-]. eauto.
Qed.

(** ** The walk, as a relation between its states *)

Section walk_facts.
Variable now : nat → string.

Lemma grows_nothing (S : json → Prop) st :
  (∀ d, ¬ S (JObj d)) → grows now S st st.
Proof.
  intros HS. apply (Grows now S st st []); simpl.
  - by rewrite app_nil_r.
  - set_solver.
  - constructor.
  - intros t Ht. by apply elem_of_nil in Ht.
  - intros t Ht. by apply elem_of_nil in Ht.
  - intros i t Hi. by rewrite lookup_nil in Hi.
  - intros d ?? Hd. by destruct (HS d).
Qed.

Lemma grows_seq (S1 S2 S : json → Prop) st st1 st2 :
  (∀ d, S (JObj d) ↔ S1 (JObj d) ∨ S2 (JObj d)) →
  grows now S1 st st1 → grows now S2 st1 st2 → grows now S st st2.
Proof.
  intros HS [n1 T1 I1 N1 F1 O1 P1 C1] [n2 T2 I2 N2 F2 O2 P2 C2].
  apply (Grows now S st st2 (n1 ++ n2)).
  - by rewrite T2, T1, app_assoc.
  - rewrite I2, I1, fmap_app, list_to_set_app_L. set_solver.
  - rewrite fmap_app. apply NoDup_app. split_and!; [done| |done].
    intros x Hx1 Hx2. apply list_elem_of_fmap in Hx2 as (t & -> & Ht).
    apply (F2 t Ht). rewrite I1. apply elem_of_union_r.
    by apply elem_of_list_to_set.
  - intros t [Ht|Ht]%elem_of_app; [by apply F1|].
    intros Hin. apply (F2 t Ht). rewrite I1. set_solver.
  - intros t [Ht|Ht]%elem_of_app.
    + destruct (O1 t Ht) as (d & ? & ?). exists d. split; [apply HS|]; auto.
    + destruct (O2 t Ht) as (d & ? & ?). exists d. split; [apply HS|]; auto.
  - intros i t Hi. apply lookup_app_Some in Hi as [Hi|[Hle Hi]].
    + by apply P1.
    + rewrite (P2 _ _ Hi), T1, length_app. f_equal. lia.
  - intros d rid text [H1|H2]%HS Hc Hj.
    + rewrite I2. apply elem_of_union_l. by eapply C1.
    + by eapply C2.
Qed.

(** The loops [for v in obj.values(): walk(v)] and
    [for item in obj: walk(item)]. *)
Lemma walk_each_grows {A} (f : A → wstate → result wstate) (sub : A → json)
    (l : list A) :
  Forall (λ x, ∀ st st', f x st = Ok st' →
                grows now (λ n, subnode n (sub x)) st st') l →
  ∀ st st', walk_each f l st = Ok st' →
    grows now (λ n, ∃ x, x ∈ l ∧ subnode n (sub x)) st st'.
Proof.
  induction 1 as [|x l Hx Hl IH]; intros st st' Hw; simpl in Hw.
  - injection Hw as <-. apply grows_nothing. intros d (x & Hx & _).
    by apply elem_of_nil in Hx.
  - destruct (f x st) as [st1|e] eqn:Hf; [|done]. simpl in Hw.
    eapply grows_seq; [|by apply Hx|by apply IH].
    intros n. split.
    + intros (y & [->|Hy]%elem_of_cons & Hn); [by left|right; eauto].
    + intros [Hn|(y & Hy & Hn)]; [exists x|exists y]; split; auto;
        [left|by right].
Qed.

Lemma grows_same (S S' : json → Prop) st st' :
  (∀ d, S (JObj d) ↔ S' (JObj d)) → grows now S st st' → grows now S' st st'.
Proof.
  intros HS [n T I N F O P C]. apply (Grows now S' st st' n); try done.
  - intros t Ht. destruct (O t Ht) as (d & ? & ?). exists d.
    split; [by apply HS|done].
  - intros d rid text Hd. apply C. by apply HS.
Qed.

Lemma subnode_dict_inv d' d :
  subnode (JObj d') (JObj d) ↔
  JObj d' = JObj d ∨ ∃ kv, kv ∈ d ∧ subnode (JObj d') kv.2.
Proof.
  split.
  - inversion 1; subst; [by left|right; eauto].
  - intros [[= ->]|(kv & Hkv & Hs)]; [constructor|by eapply subnode_value].
Qed.

Lemma subnode_list_inv d' l :
  subnode (JObj d') (JArr l) ↔ ∃ x, x ∈ l ∧ subnode (JObj d') x.
Proof.
  split.
  - inversion 1; subst; eauto.
  - intros (x & Hx & Hs). by eapply subnode_item.
Qed.

Lemma build_tweet_fields stamp d leg rid text t :
  build_tweet stamp d leg rid text = Ok t →
  tw_id t = rid ∧ tw_text t = clean_text text ∧
  tw_scraped_at t = stamp ∧ classify d leg = Ok (tw_tweet_type t).
Proof.
  unfold build_tweet, mbind, result_bind. intros H.
  repeat match type of H with
         | rbind _ ?m = _ => destruct m eqn:?; simpl in H; [|discriminate]
         end.
  injection H as <-. by simpl.
Qed.

(** What the visit of one dict node does before its children are
    walked. *)
Lemma visit_grows d st st1 :
  (candidate d = false ∧ st1 = st) ∨
  (candidate d = true ∧ judge d = Ok Rejected ∧ st1 = st) ∨
  (candidate d = true ∧ ∃ rid text, judge d = Ok (Accepted rid text) ∧
     ((rid ∈ seen_ids st ∧ st1 = st) ∨
      (∃ t, (rid ∉ seen_ids st) ∧
         build_tweet (now (length (tweets st))) d (legacy_of d) rid text = Ok t ∧
         st1 = {| tweets := tweets st ++ [t];
                  seen_ids := {[rid]} ∪ seen_ids st |}))) →
  grows now (λ n, n = JObj d) st st1.
Proof.
  intros [[Hc ->]|[(Hc & Hj & ->)|(Hc & rid & text & Hj & [[Hin ->]|(t & Hin & Hb & ->)])]].
  - apply (Grows now _ st st []); simpl; try set_solver.
    + by rewrite app_nil_r.
    + constructor.
    + intros d' ?? [= ->]. congruence.
  - apply (Grows now _ st st []); simpl; try set_solver.
    + by rewrite app_nil_r.
    + constructor.
    + intros d' ?? [= ->]. congruence.
  - apply (Grows now _ st st []); simpl; try set_solver.
    + by rewrite app_nil_r.
    + constructor.
    + intros d' ?? [= ->] _ Hj'. congruence.
  - destruct (build_tweet_fields _ _ _ _ _ _ Hb) as (Hid & _ & Hst & _).
    apply (Grows now _ st _ [t]); simpl; try done.
    + rewrite Hid. set_solver.
    + apply NoDup_singleton.
    + intros t' ->%list_elem_of_singleton. by rewrite Hid.
    + intros t' ->%list_elem_of_singleton. exists d. split; [done|].
      split; [done|]. by exists rid, text, (length (tweets st)).
    + intros [|i] t' Hi; [|done]. injection Hi as <-.
      by rewrite Hst, Nat.add_0_r.
    + intros d' ?? [= ->] _ Hj'. rewrite Hj in Hj'. injection Hj' as <- <-.
      set_solver.
Qed.

Theorem walk_grows obj :
  ∀ st st', walk now obj st = Ok st' → grows now (λ n, subnode n obj) st st'.
Proof.
  induction obj as [|b|n|s|l IH|d IH] using json_nested_ind;
    intros st st' Hw; simpl in Hw.
  1-4: injection Hw as <-; apply grows_nothing; intros d Hd; inversion Hd.
  - eapply grows_same; [|by apply (walk_each_grows _ (λ x, x) l IH)].
    intros d. simpl. by rewrite subnode_list_inv.
  - assert (∀ st1, walk_each (λ kv : string * json, walk now kv.2) d st1 = Ok st' →
              grows now (λ n, n = JObj d) st st1 →
              grows now (λ n, subnode n (JObj d)) st st') as Hkids.
    { intros st1 Hk Hv. eapply grows_seq; [|exact Hv|].
      2: by apply (walk_each_grows _ (λ kv, kv.2) d IH).
      intros d'. simpl. rewrite subnode_dict_inv. done. }
    fold (candidate d) in Hw. destruct (candidate d) eqn:Hc.
    + unfold mbind, result_bind in Hw.
      destruct (judge d) as [[|rid text]|e] eqn:Hj; simpl in Hw; [| |done].
      * apply (Hkids st Hw), visit_grows. auto.
      * destruct (decide (rid ∈ seen_ids st)) as [Hin|Hin].
        -- apply (Hkids st Hw), visit_grows. right; right.
           split; [done|]. exists rid, text. auto.
        -- fold (legacy_of d) in Hw.
           destruct (build_tweet _ d (legacy_of d) rid text) as [t|e] eqn:Hb;
             simpl in Hw; [|done].
           apply (Hkids _ Hw), visit_grows. right; right.
           split; [done|]. exists rid, text. split; [done|]. right. eauto.
    + apply (Hkids st Hw), visit_grows. auto.
Qed.
End walk_facts.

(** ** What [_extract_tweets] returns *)

Lemma extract_tweets_grows now data out :
  _extract_tweets now data = Ok out →
  grows now (λ n, subnode n data) {| tweets := []; seen_ids := ∅ |}
        {| tweets := out; seen_ids := list_to_set (tw_id <$> out) |}.
Proof.
  unfold _extract_tweets, mbind, result_bind.
  destruct (walk now data _) as [st'|] eqn:Hw; simpl; [|done].
  intros [= <-]. pose proof (walk_grows now data _ _ Hw) as Hg.
  destruct Hg as [new T I N F O P C]. simpl in *.
  destruct st' as [tw seen]. simpl in *. subst tw.
  replace (list_to_set (tw_id <$> new)) with seen by set_solver.
  by apply (Grows now _ _ _ new).
Qed.

Lemma built_from_fields now d t :
  built_from now d t →
  ∃ body,
    dict_get "rest_id" (JStr "") d = JStr (tw_id t) ∧
    _is_tweet_id (JStr (tw_id t)) = Ok true ∧
    candidate_text (legacy_of d) = Ok body ∧ body ≠ "" ∧
    tw_text t = clean_text body ∧
    classify d (legacy_of d) = Ok (tw_tweet_type t).
Proof.
  intros (Hc & rid & text & k & Hj & Hb).
  destruct (judge_accepted _ _ _ Hj) as (Hr & Hi & Ht & Hne).
  destruct (build_tweet_fields _ _ _ _ _ _ Hb) as (-> & Htx & _ & Hcl).
  exists text. done.
Qed.

(** C1.  Every record that post extraction returns has an identifier
    that is a non-empty string of digits, not starting with "http", and a
    text that is non-empty, also after trimming.  The record is that of a
    candidate node of the payload whose own identifier passed
    [_is_tweet_id] and whose own body text is non-empty once stripped: a
    candidate with a non-numeric identifier or an empty text gives no
    record. *)
Theorem extract_tweets_no_ghosts now data out t :
  _extract_tweets now data = Ok out →
  t ∈ out →
  isdigit (tw_id t) = true ∧ tw_id t ≠ "" ∧
  startswith "http" (tw_id t) = false ∧
  tw_text t ≠ "" ∧ strip (tw_text t) ≠ "" ∧
  ∃ d body,
    subnode (JObj d) data ∧ candidate d = true ∧
    dict_get "rest_id" (JStr "") d = JStr (tw_id t) ∧
    _is_tweet_id (dict_get "rest_id" (JStr "") d) = Ok true ∧
    candidate_text (legacy_of d) = Ok body ∧ body ≠ "" ∧
    tw_text t = clean_text body.
Proof.
  intros Hx Ht. destruct (extract_tweets_grows _ _ _ Hx) as [new T _ _ _ O _ _].
  simpl in T. subst new. destruct (O t Ht) as (d & Hsub & Hb).
  pose proof Hb as (Hc & _).
  destruct (built_from_fields _ _ _ Hb) as (body & Hr & Hi & Hbody & Hne & Htx & _).
  destruct (is_tweet_id_true _ Hi) as (s & [= <-] & Hd & Hn & Hp).
  destruct (candidate_text_stripped _ _ Hbody) as (raw & Hraw).
  assert (inked body = true) as Hink.
  { rewrite Hraw. apply strip_inked. by rewrite <- Hraw. }
  assert (inked (tw_text t) = true) as Hink'.
  { rewrite Htx. by apply clean_text_inked. }
  split_and!; try done.
  - by apply inked_nonempty.
  - by apply inked_strip.
  - exists d, body. split_and!; try done. by rewrite Hr.
Qed.

Lemma extract_tweets_no_ghosts_witness :
  _extract_tweets sample_clock ghost_payload = Ok ghost_records ∧
  ghost_first ∈ ghost_records ∧
  tw_id ghost_first = "123" ∧ tw_text ghost_first = "hi & bye" ∧
  (tw_id <$> ghost_records) = ["123"; "456"] ∧
  isdigit (tw_id ghost_first) = true ∧
  strip (tw_text ghost_first) ≠ "".
Proof.
  assert (_extract_tweets sample_clock ghost_payload = Ok ghost_records) as Hx
    by (vm_compute; reflexivity).
  assert (ghost_first ∈ ghost_records) as Ht by (vm_compute; constructor).
  pose proof (extract_tweets_no_ghosts sample_clock ghost_payload
                ghost_records ghost_first Hx Ht) as (Hd & _ & _ & _ & Hs & _).
  split_and!; try done.
Defined.

(** ** Rejected and duplicate candidates are still walked *)


Lemma walk_suppressed now d st :
  suppressed d st →
  walk now (JObj d) st = walk_each (λ kv : string * json, walk now kv.2) d st.
Proof.
  intros [Hc Hj]. simpl. fold (candidate d). rewrite Hc.
  unfold mbind, result_bind.
  destruct Hj as [->|(rid & text & -> & Hin)]; simpl; [done|].
  by destruct (decide (rid ∈ seen_ids st)).
Qed.

(** C2, as amended.  Whenever post extraction returns, its output has at
    most one record per identifier, and every valid post node of the
    payload, wherever it is nested (also inside a candidate that is
    rejected or whose identifier was accepted earlier in the call), has a
    record with its identifier in the output.  The walk of a candidate that
    is rejected, or whose identifier was accepted earlier in the call, is
    the walk of its children. *)
Theorem extract_tweets_walks_past_rejects now data :
  (∀ out, _extract_tweets now data = Ok out →
     NoDup (tw_id <$> out) ∧
     ∀ d rid text,
       subnode (JObj d) data → candidate d = true →
       judge d = Ok (Accepted rid text) →
       rid ∈ (tw_id <$> out)) ∧
  (∀ d st, suppressed d st →
     walk now (JObj d) st =
     walk_each (λ kv : string * json, walk now kv.2) d st).
Proof.
  split.
  - intros out Hx.
    destruct (extract_tweets_grows _ _ _ Hx) as [new T _ N _ _ _ C].
    simpl in T. subst new. split; [done|].
    intros d rid text Hs Hc Hj. specialize (C d rid text Hs Hc Hj).
    simpl in C. by apply elem_of_list_to_set in C.
  - intros d st. apply walk_suppressed.
Qed.

Lemma extract_tweets_walks_past_rejects_witness :
  _extract_tweets sample_clock ghost_payload = Ok ghost_records ∧
  (tw_id <$> ghost_records) = ["123"; "456"] ∧
  NoDup (tw_id <$> ghost_records) ∧
  "456" ∈ (tw_id <$> ghost_records).
Proof.
  destruct (extract_tweets_walks_past_rejects sample_clock ghost_payload)
    as (Hout & _).
  assert (_extract_tweets sample_clock ghost_payload = Ok ghost_records) as Hx
    by (vm_compute; reflexivity).
  destruct (Hout ghost_records Hx) as [Hnd Hcov].
  split_and!; try done.
  apply (Hcov [("rest_id", JStr "456"); ("legacy", JObj [("full_text", JStr "nested")])]
              "456" "nested").
  - eapply subnode_item; [do 3 right; left|].
    eapply (subnode_value _ _ ("quoted", _)); [do 2 right; left|]. constructor.
  - vm_compute; reflexivity.
  - vm_compute; reflexivity.
Defined.

(** The claim C2 as it is written fails on [null_legacy_payload]: the
    wrapper is rejected, the post nested in it is valid, and the call
    raises at the later candidate whose legacy body is [null], so that no
    record at all is returned. *)
Lemma extract_tweets_raises_after_nested_post :
  suppressed [ ("rest_id", JStr "http://t.co/x"); ("legacy", JObj []);
               ("quoted", sample_post "123" "hi" []);
               ("card", JObj [("rest_id", JStr "9"); ("legacy", JNull)]) ]
             {| tweets := []; seen_ids := ∅ |} ∧
  subnode (sample_post "123" "hi" []) null_legacy_payload ∧
  judge [("rest_id", JStr "123"); ("legacy", JObj [("full_text", JStr "hi")])]
    = Ok (Accepted "123" "hi") ∧
  ¬ ∃ out, _extract_tweets sample_clock null_legacy_payload = Ok out.
Proof.
  split_and!.
  - split; [vm_compute; reflexivity|]. left. vm_compute; reflexivity.
  - eapply (subnode_value _ _ ("quoted", _)); [do 2 right; left|]. constructor.
  - vm_compute; reflexivity.
  - intros [out Hx]. vm_compute in Hx. discriminate.
Qed.

(** ** Classification *)

Lemma classify_spec_tag d legv tag :
  classify d legv = Ok tag →
  ∃ leg, legv = JObj leg ∧ tag = spec_tag d leg.
Proof.
  unfold classify, mbind, result_bind.
  destruct legv as [| | | | |leg]; simpl; try done.
  intros [= <-]. by exists leg.
Qed.

(** C4.  Every record that post extraction returns is the record of a
    candidate node [d] of the payload, and its tag is: "retweet" if the
    legacy body of [d] holds a retweeted-status reference, else "quote" if
    [d] holds a quoted-status reference, else "reply" if the legacy body
    holds an in-reply-to identifier, else "original".  A candidate with
    both a retweeted-status reference and an in-reply-to identifier is
    tagged "retweet". *)
Theorem classification_precedence now data out t :
  _extract_tweets now data = Ok out →
  t ∈ out →
  ∃ d leg,
    subnode (JObj d) data ∧ built_from now d t ∧ legacy_of d = JObj leg ∧
    tw_tweet_type t = spec_tag d leg ∧
    (has_retweeted_status leg = true → has_reply_to leg = true →
     tw_tweet_type t = "retweet" ∧ tw_tweet_type t ≠ "reply").
Proof.
  intros Hx Ht. destruct (extract_tweets_grows _ _ _ Hx) as [new T _ _ _ O _ _].
  simpl in T. subst new. destruct (O t Ht) as (d & Hsub & Hb).
  destruct (built_from_fields _ _ _ Hb) as (body & _ & _ & _ & _ & _ & Hcl).
  destruct (classify_spec_tag _ _ _ Hcl) as (leg & Hleg & Htag).
  exists d, leg. split_and!; try done.
  intros Hr _. rewrite Htag. unfold spec_tag. by rewrite Hr.
Qed.

Lemma classification_precedence_witness :
  _extract_tweets sample_clock repost_reply_payload = Ok [repost_reply_record] ∧
  repost_reply_record ∈ [repost_reply_record] ∧
  tw_tweet_type repost_reply_record = "retweet" ∧
  tw_reply_to_id repost_reply_record = JStr "1999".
Proof.
  assert (_extract_tweets sample_clock repost_reply_payload
          = Ok [repost_reply_record]) as Hx by (vm_compute; reflexivity).
  assert (repost_reply_record ∈ [repost_reply_record]) as Ht by constructor.
  destruct (classification_precedence _ _ _ _ Hx Ht)
    as (d & leg & _ & _ & _ & Htag & _).
  split_and!; try done.
Defined.

(** ** The clock is the only context the walks read *)


Lemma unstamped_set_stamp s t : unstamped (set_stamp s t) = unstamped t.
Proof. done. Qed.









(** ** The proxy pool *)

Import ProxyQueue.

Lemma record_queue url ok n e p : _q (record url ok n e p) = _q p.
Proof. unfold record. by destruct (_stats p !! url). Qed.

Lemma run_queue calls :
  ∀ p, _q p = handed_out (run calls p).1 ++ _q (run calls p).2.
Proof.
  induction calls as [|c calls IH]; intros p; [done|].
  destruct c; simpl; try apply IH.
  - unfold checkout. destruct (_q p) as [|url rest] eqn:Hq.
    + specialize (IH p). destruct (run calls p) as [rs p2]. simpl in *.
      by rewrite <- IH.
    + specialize (IH {| _q := rest; _stats := _stats p;
                        _total_loaded := _total_loaded p |}).
      destruct (run calls _) as [rs p2]. simpl in *. by rewrite <- IH.
  - rewrite <- IH. by rewrite record_queue.
Qed.

(** C6, as amended.  Over any sequence of calls on one pool instance,
    what the checkouts hand out, in order, followed by what is left in the
    queue, is the queue the sequence started from: every queue entry is
    handed out at most once.  When the queue names no URL twice, no URL is
    handed out twice and none that was handed out is still queued.
    [record] leaves the queue alone whatever flag it is given, and
    [checkout] on an empty queue returns [None] and changes nothing. *)
Theorem checkout_one_shot p calls :
  _q p = handed_out (run calls p).1 ++ _q (run calls p).2 ∧
  (NoDup (_q p) →
   NoDup (handed_out (run calls p).1) ∧
   ∀ url, url ∈ handed_out (run calls p).1 → url ∉ _q (run calls p).2) ∧
  (∀ url ok n e, _q (record url ok n e p) = _q p) ∧
  (_q p = [] → checkout p = (None, p)) ∧
  (_q p = [] → ∀ r, r ∈ (run calls p).1 → r = None).
Proof.
  pose proof (run_queue calls p) as Hq. split_and!.
  - done.
  - rewrite Hq. intros (Hn & Hd & _)%NoDup_app. split; [done|].
    intros url Hin Hin'. by apply (Hd url).
  - intros. apply record_queue.
  - intros Hnil. unfold checkout. by rewrite Hnil.
  - intros Hnil. rewrite Hnil in Hq. symmetry in Hq.
    apply app_eq_nil in Hq as [Hout _].
    intros r Hr. destruct r as [url|]; [|done].
    assert (url ∈ handed_out (run calls p).1) as Hin.
    { apply list_elem_of_omap. by exists (Some url). }
    rewrite Hout in Hin. by apply elem_of_nil in Hin.
Qed.

Lemma checkout_one_shot_witness :
  NoDup (_q sample_pool) ∧
  (run sample_calls sample_pool).1
  = [Some "http://10.0.0.1:8080"; Some "socks5://10.0.0.2:1080"; None; None] ∧
  NoDup (handed_out (run sample_calls sample_pool).1) ∧
  _q (run sample_calls sample_pool).2 = [] ∧
  checkout (run sample_calls sample_pool).2
  = (None, (run sample_calls sample_pool).2).
Proof.
  destruct (checkout_one_shot sample_pool sample_calls) as (_ & Hnd & _).
  destruct (checkout_one_shot (run sample_calls sample_pool).2 [])
    as (_ & _ & _ & Hempty & _).
  assert (NoDup (_q sample_pool)) as Hq.
  { vm_compute. repeat constructor; set_solver. }
  assert (_q (run sample_calls sample_pool).2 = []) as Hnil by reflexivity.
  split_and!; [exact Hq|reflexivity|apply (Hnd Hq)|exact Hnil|apply (Hempty Hnil)].
Defined.

(** The claim C6 as it is written fails: a proxy list that names a URL
    twice is loaded with that URL queued twice, and a later [checkout]
    returns the URL again, also after it was recorded as failed. *)
Lemma checkout_returns_repeated_url :
  _load (Some repeated_proxy_list) = Ok repeated_pool ∧
  (run [ CallCheckout; CallRecord "http://10.0.0.1:8080" false 0 3;
         CallCheckout; CallCheckout ] repeated_pool).1
  = [ Some "http://10.0.0.1:8080"; Some "http://10.0.0.2:8080";
      Some "http://10.0.0.1:8080" ] ∧
  ¬ NoDup (handed_out
             (run [ CallCheckout; CallRecord "http://10.0.0.1:8080" false 0 3;
                    CallCheckout; CallCheckout ] repeated_pool).1).
Proof.
  split_and!; [vm_compute; reflexivity|vm_compute; reflexivity|].
  intros Hn. vm_compute in Hn.
  apply NoDup_cons in Hn as [Hin _]. apply Hin.
  apply list_elem_of_further, list_elem_of_here.
Qed.

(** ** Loading the proxy list *)

Lemma load_item_skip p item :
  named_url item = None → load_item p item = p.
Proof.
  unfold named_url, load_item.
  destruct (entry_proxy item) as [url|]; simpl; [|done].
  by destruct (String.eqb url "").
Qed.

Lemma load_item_named p item url :
  named_url item = Some url →
  url ≠ "" ∧ _q (load_item p item) = _q p ++ [url] ∧
  _stats (load_item p item)
  = <[url := mkStat (entry_speed item) false 0 0]> (_stats p) ∧
  _total_loaded (load_item p item) = _total_loaded p.
Proof.
  unfold named_url, load_item.
  destruct (entry_proxy item) as [u|]; simpl; [|done].
  destruct (String.eqb_spec u ""); simpl; [done|]. by intros [= <-].
Qed.

Lemma load_fold data :
  ∀ p, let p' := foldl load_item p data in
    _q p' = _q p ++ loaded_urls data ∧
    dom (_stats p') = dom (_stats p) ∪ list_to_set (loaded_urls data) ∧
    (map_Forall (λ _ s, fresh_stat s) (_stats p) →
     map_Forall (λ _ s, fresh_stat s) (_stats p')).
Proof.
  induction data as [|item data IH]; intros p; simpl.
  - rewrite app_nil_r. split_and!; [done|set_solver|done].
  - unfold loaded_urls. simpl. fold (loaded_urls data).
    destruct (IH (load_item p item)) as (Hq & Hd & Hf).
    destruct (named_url item) as [url|] eqn:Hn.
    + destruct (load_item_named p item url Hn) as (_ & Hq1 & Hs1 & _).
      rewrite Hq, Hd, Hq1, Hs1, <- app_assoc, dom_insert_L.
      split_and!; [done|set_solver|].
      intros Hp. apply Hf. rewrite Hs1. by apply map_Forall_insert_2.
    + rewrite (load_item_skip p item Hn) in *. done.
Qed.

Lemma loaded_urls_nonempty data : "" ∉ loaded_urls data.
Proof.
  unfold loaded_urls. intros (item & _ & Hn)%list_elem_of_omap.
  unfold named_url in Hn. destruct (entry_proxy item) as [u|]; [|done].
  destruct (String.eqb_spec u ""); [done|]. by injection Hn.
Qed.

Lemma filter_none {A} (P : A → Prop) `{∀ x, Decision (P x)} (l : list A) :
  Forall (λ x, ¬ P x) l → filter P l = [].
Proof.
  induction 1 as [|x l Hx Hl IH]; [done|].
  rewrite filter_cons. by destruct (decide (P x)).
Qed.

Lemma used_fresh p :
  map_Forall (λ _ s, fresh_stat s) (_stats p) → used p = [].
Proof.
  intros Hf. unfold used, stat_values. apply filter_none.
  apply Forall_fmap. apply map_Forall_to_list in Hf.
  eapply Forall_impl; [exact Hf|].
  intros [u s] (_ & _ & He). simpl in *. lia.
Qed.

Lemma load_facts data p :
  _load (Some data) = Ok p →
  _q p = loaded_urls data ∧
  dom (_stats p) = list_to_set (loaded_urls data) ∧
  _total_loaded p = length (loaded_urls data) ∧
  map_Forall (λ _ s, fresh_stat s) (_stats p).
Proof.
  intros [= <-].
  destruct (load_fold data {| _q := []; _stats := ∅; _total_loaded := O |})
    as (Hq & Hd & Hf). simpl in *.
  split_and!; [done|set_solver|by rewrite Hq|apply Hf, map_Forall_empty].
Qed.

(** C10.  Loading a proxy list queues, in order, the URLs of the entries
    whose "proxy" value is there and not empty, and gives a stats record
    to those URLs only; an entry without one changes nothing.  [total()]
    and [remaining()] are the number of such entries, the summary counts
    them, and no sequence of calls makes [checkout()] return the empty
    string. *)
Theorem load_skips_unnamed data :
  (∀ p item, named_url item = None → load_item p item = p) ∧
  ∃ p, _load (Some data) = Ok p ∧
    _q p = loaded_urls data ∧
    dom (_stats p) = list_to_set (loaded_urls data) ∧
    total p = length (loaded_urls data) ∧
    remaining p = length (loaded_urls data) ∧
    summary p = pretty (length (loaded_urls data))
                +:+ " proxies | 0/0 sessions ok | 0 raw tweets" ∧
    ("" ∉ _q p) ∧ _stats p !! "" = None ∧
    ∀ calls, Some "" ∉ (run calls p).1.
Proof.
  split; [apply load_item_skip|].
  eexists. split; [reflexivity|].
  destruct (load_fold data {| _q := []; _stats := ∅; _total_loaded := O |})
    as (Hq & Hd & Hf). simpl in Hq, Hd.
  set (p := {| _q := _q _; _stats := _stats _; _total_loaded := _ |}).
  assert (_q p = loaded_urls data) as Hqp by done.
  assert ("" ∉ _q p) as Hne by (rewrite Hqp; apply loaded_urls_nonempty).
  assert (dom (_stats p) = list_to_set (loaded_urls data)) as Hdp
    by (simpl; rewrite Hd; set_solver).
  split_and!; try done.
  - unfold total. simpl. by rewrite Hq.
  - unfold remaining. by rewrite Hqp.
  - unfold summary, succeeded, raw_tweets.
    rewrite (used_fresh p); [|apply Hf, map_Forall_empty].
    simpl. by rewrite Hq.
  - apply not_elem_of_dom. rewrite Hdp. intros Hin%elem_of_list_to_set.
    by apply (loaded_urls_nonempty data).
  - intros calls Hin. apply Hne. rewrite (run_queue calls p).
    apply elem_of_app. left. apply list_elem_of_omap. by exists (Some "").
Qed.

Lemma load_skips_unnamed_witness :
  _load (Some sample_proxy_list) = Ok sample_pool ∧
  _q sample_pool = ["http://10.0.0.1:8080"; "socks5://10.0.0.2:1080"] ∧
  total sample_pool = 2%nat ∧ remaining sample_pool = 2%nat ∧
  summary sample_pool = "2 proxies | 0/0 sessions ok | 0 raw tweets" ∧
  size (_stats sample_pool) = 2%nat.
Proof.
  destruct (load_skips_unnamed sample_proxy_list)
    as (_ & p & Hl & Hq & _ & Ht & Hr & Hs & _).
  assert (_load (Some sample_proxy_list) = Ok sample_pool) as Hl'
    by (vm_compute; reflexivity).
  rewrite Hl' in Hl. injection Hl as <-.
  split_and!; [exact Hl'|exact Hq|exact Ht|exact Hr|exact Hs|].
  vm_compute; reflexivity.
Defined.

(** ** The session checks the rate-limit signal before it drives the page *)

Section session_facts.
Import StickySession.
Variable cfg : Config.
Variable env : environment.

Lemma perform_trace a r :
  trace (perform env a r).2 = trace r ∨
  trace (perform env a r).2 = trace r ++ [(a, now_world r)].
Proof.
  unfold perform. destruct (env _ a (now_world r)) as [w' e].
  destruct a as [ticks| |]; simpl; auto.
  destruct (ticks <? 0)%Z; simpl; auto.
Qed.

Lemma perform_began_clear a r :
  began_clear (a, now_world r) →
  Forall began_clear (trace r) →
  Forall began_clear (trace (perform env a r).2).
Proof.
  intros Ha Hr. destruct (perform_trace a r) as [->| ->]; [done|].
  apply Forall_app. split; [done|]. by constructor.
Qed.

Lemma scroll_loop_began_clear target pause left :
  ∀ turn r, Forall began_clear (trace r) →
    Forall began_clear (trace (scroll_loop env target pause left turn r)).
Proof.
  induction left as [|left IH]; intros turn r Hr; cbn -[perform]; [done|].
  destruct (rate_limited (now_world r)) eqn:Hrl; [done|].
  pose proof (perform_began_clear ScrollToBottom r (λ _, Hrl) Hr) as H1.
  destruct (perform env ScrollToBottom r) as [[e|] r1]; cbn -[perform] in *; [done|].
  assert (began_clear (Sleep (pause turn), now_world r1)) as Hs by (by intros ?).
  pose proof (perform_began_clear _ r1 Hs H1) as H2.
  destruct (perform env (Sleep (pause turn)) r1) as [[e|] r2];
    cbn -[perform] in *; [done|].
  destruct (_ <=? _)%Z; [done|]. by apply IH.
Qed.

(** C7.  A session whose [scrape] is called with the rate-limit signal
    set returns the bucket and the profile as they are and makes no call
    at all.  One for which the signal becomes set during the stagger sleep
    returns the bucket and the profile as the sleep left them, with the
    sleep as its only call.  In every run, each navigation and each scroll
    step began in a world where the signal was clear. *)
Theorem scrape_heeds_rate_limit (d : draws) (target_url : string) (w : world) :
  (rate_limited w = true →
   scrape cfg env d target_url w
   = ((_bucket w, _profile w), {| now_world := w; trace := [] |})) ∧
  (∀ w1, rate_limited w = false → (0 < stagger d)%Z →
     env O (Sleep (stagger d)) w = (w1, None) → rate_limited w1 = true →
     scrape cfg env d target_url w
     = ((_bucket w1, _profile w1),
        {| now_world := w1; trace := [(Sleep (stagger d), w)] |})) ∧
  Forall began_clear (trace (scrape cfg env d target_url w).2) ∧
  (scrape cfg env d target_url w).1
  = (_bucket (now_world (scrape cfg env d target_url w).2),
     _profile (now_world (scrape cfg env d target_url w).2)).
Proof.
  split_and!.
  - intros Hw. unfold scrape, scrape_run. by rewrite Hw.
  - intros w1 Hw Hs He Hw1. unfold scrape, scrape_run. rewrite Hw.
    apply Z.ltb_lt in Hs as Hs'. rewrite Hs'. unfold perform. simpl.
    assert ((stagger d <? 0)%Z = false) as -> by lia.
    rewrite He. simpl. by rewrite Hw1.
  - unfold scrape, scrape_run. cbn -[perform].
    set (r0 := {| now_world := w; trace := [] |}).
    assert (Forall began_clear (trace r0)) as H0 by constructor.
    destruct (rate_limited w) eqn:Hw; [done|].
    assert (Forall began_clear
              (trace (if (0 <? stagger d)%Z
                      then perform env (Sleep (stagger d)) r0
                      else (None, r0)).2)) as H1.
    { destruct (0 <? stagger d)%Z; [|done].
      apply perform_began_clear; [by intros ?|done]. }
    destruct (if (0 <? stagger d)%Z then _ else _) as [[e|] r1];
      cbn -[perform] in *; [done|].
    destruct (rate_limited (now_world r1)) eqn:Hr1; [done|].
    pose proof (perform_began_clear (Goto target_url) r1 (λ _, Hr1) H1) as H2.
    destruct (perform env (Goto target_url) r1) as [[e|] r2];
      cbn -[perform] in *; [done|].
    assert (began_clear (Sleep (page_load_pause d), now_world r2)) as Hs
      by (by intros ?).
    pose proof (perform_began_clear _ r2 Hs H2) as H3.
    destruct (perform env (Sleep (page_load_pause d)) r2) as [[e|] r3];
      cbn -[perform] in *; [done|].
    by apply scroll_loop_began_clear.
  - done.
Qed.
End session_facts.

Lemma scrape_heeds_rate_limit_witness :
  StickySession.rate_limited idle_world = false ∧
  (0 < StickySession.stagger sample_draws)%Z ∧
  StickySession.rate_limited
    (stagger_trip_env O (StickySession.Sleep 4) idle_world).1 = true ∧
  StickySession.scrape sample_config stagger_trip_env sample_draws
    "https://x.com/search?q=rocq" idle_world
  = (([], None),
     StickySession.mkRun (StickySession.mkWorld true [] None)
       [(StickySession.Sleep 4, idle_world)]) ∧
  (StickySession.trace
     (StickySession.scrape sample_config tripping_env sample_draws
        "https://x.com/search?q=rocq" idle_world).2).*1
  = [ StickySession.Sleep 4; StickySession.Goto "https://x.com/search?q=rocq";
      StickySession.Sleep 3;
      StickySession.ScrollToBottom; StickySession.Sleep 2;
      StickySession.ScrollToBottom; StickySession.Sleep 2 ] ∧
  Forall began_clear
    (StickySession.trace
       (StickySession.scrape sample_config tripping_env sample_draws
          "https://x.com/search?q=rocq" idle_world).2).
Proof.
  destruct (scrape_heeds_rate_limit sample_config stagger_trip_env sample_draws
              "https://x.com/search?q=rocq" idle_world) as (_ & Hstag & _).
  destruct (scrape_heeds_rate_limit sample_config tripping_env sample_draws
              "https://x.com/search?q=rocq" idle_world) as (_ & _ & Hclear & _).
  assert (StickySession.rate_limited idle_world = false) as H1 by reflexivity.
  assert (0 < StickySession.stagger sample_draws)%Z as H2 by (simpl; lia).
  split_and!; [exact H1|exact H2|reflexivity| |reflexivity|exact Hclear].
  apply (Hstag (StickySession.mkWorld true [] None) H1 H2); reflexivity.
Defined.

(** ** The merge of the session buffers *)

Section merge_facts.
Import TwitterScraper.

Lemma foldl_merge_concat batches :
  ∀ acc, foldl (λ acc batch, foldl merge_step acc batch) acc batches
         = foldl merge_step acc (concat batches).
Proof.
  induction batches as [|b bs IH]; intros acc; simpl; [done|].
  by rewrite IH, foldl_app.
Qed.

Lemma merge_step_unseen l :
  ∀ sl merged, Forall (λ t, tw_id t ≠ "") l →
    foldl merge_step (list_to_set sl, merged) l
    = (list_to_set ((tw_id <$> rev (unseen sl l)) ++ sl), merged ++ unseen sl l).
Proof.
  induction l as [|t l IH]; intros sl merged Hl; simpl.
  - by rewrite app_nil_r.
  - apply Forall_cons in Hl as [Ht Hl]. unfold merge_step at 2. simpl.
    destruct (String.eqb_spec (tw_id t) ""); [done|]. simpl.
    rewrite (bool_decide_ext (tw_id t ∈ (list_to_set sl : gset string))
               (tw_id t ∈ sl)) by apply elem_of_list_to_set.
    destruct (bool_decide (tw_id t ∈ sl)); simpl; [by apply IH|].
    replace ({[tw_id t]} ∪ list_to_set sl : gset string)
      with (list_to_set (tw_id t :: sl) : gset string) by done.
    rewrite (IH _ _ Hl), <- app_assoc. simpl.
    rewrite fmap_app, <- app_assoc. done.
Qed.

Lemma unseen_fresh l :
  ∀ sl, NoDup (tw_id <$> unseen sl l) ∧
        (∀ t, t ∈ unseen sl l → (tw_id t ∉ sl) ∧ t ∈ l).
Proof.
  induction l as [|t l IH]; intros sl; simpl.
  - split; [constructor|]. intros t Ht. by apply elem_of_nil in Ht.
  - destruct (bool_decide_reflect (tw_id t ∈ sl)) as [Hin|Hin].
    + destruct (IH sl) as [Hn Hf]. split; [done|].
      intros t' Ht'. destruct (Hf t' Ht'). split; [done|by right].
    + destruct (IH (tw_id t :: sl)) as [Hn Hf]. split.
      * simpl. constructor; [|done].
        intros (t' & Heq & Ht')%list_elem_of_fmap.
        destruct (Hf t' Ht') as [Hnot _]. apply Hnot. rewrite Heq. by left.
      * intros t' [->|Ht']%elem_of_cons; [split; [done|by left]|].
        destruct (Hf t' Ht') as [Hnot ?]. split; [|by right].
        intros ?. apply Hnot. by right.
Qed.

Lemma ltb_le a b : String.ltb a b = true → String.le a b.
Proof.
  unfold String.le, String.ltb, String.leb.
  by destruct (String.compare a b).
Qed.

Lemma not_ltb_le a b : String.ltb a b = false → String.le b a.
Proof.
  unfold String.le, String.ltb, String.leb.
  rewrite (String.compare_antisym a b).
  by destruct (String.compare b a).
Qed.

Lemma ltb_ne a b : String.ltb a b = true → a ≠ b.
Proof.
  unfold String.ltb. intros H ->.
  pose proof (String.compare_antisym b b) as Hc.
  by destruct (String.compare b b).
Qed.

Lemma py_lt_dated a b :
  well_dated a → well_dated b →
  py_lt (tw_created_at a) (tw_created_at b)
  = Ok (String.ltb (created a) (created b)).
Proof. intros [s Hs] [s' Hs']. unfold created. by rewrite Hs, Hs'. Qed.

Lemma insert_desc_spec t l :
  well_dated t → Forall well_dated l →
  ∃ l', insert_desc t l = Ok l' ∧ l' ≡ₚ t :: l ∧
        (StronglySorted not_older l → StronglySorted not_older l') ∧
        ∀ s, filter (λ x, created x = s) l'
             = filter (λ x, created x = s) (t :: l).
Proof.
  intros Ht. induction 1 as [|x l Hx Hl IH]; simpl.
  - exists [t]. split_and!; [done|done| |done].
    intros _. repeat constructor.
  - rewrite (py_lt_dated t x Ht Hx). unfold mbind, result_bind. simpl.
    destruct IH as (l' & -> & Hp & Hs & Hf).
    destruct (String.ltb (created t) (created x)) eqn:Hlt; simpl.
    + exists (x :: l'). split_and!; [done| | |].
      * rewrite Hp. apply Permutation_swap.
      * intros Hss. apply StronglySorted_inv in Hss as [Hsl Hall].
        constructor; [by apply Hs|]. rewrite Hp. constructor; [|done].
        by apply ltb_le.
      * intros s. rewrite !filter_cons, Hf, !filter_cons.
        destruct (decide (created x = s)) as [Hxs|], (decide (created t = s))
          as [Hts|]; try done.
        exfalso. apply (ltb_ne _ _ Hlt). congruence.
    + exists (t :: x :: l). split_and!; [done|done| |done].
      intros Hss. constructor; [done|].
      apply StronglySorted_inv in Hss as [Hsl Hall].
      apply not_ltb_le in Hlt. constructor; [done|].
      eapply Forall_impl; [exact Hall|]. intros y Hy.
      unfold not_older in *. by etrans.
Qed.

Lemma sort_desc_spec l :
  Forall well_dated l →
  ∃ sorted, sort_desc l = Ok sorted ∧ sorted ≡ₚ l ∧
            StronglySorted not_older sorted ∧
            ∀ s, filter (λ x, created x = s) sorted
                 = filter (λ x, created x = s) l.
Proof.
  induction 1 as [|t l Ht Hl IH]; simpl.
  - exists []. split_and!; [done|done|constructor|done].
  - destruct IH as (sorted & -> & Hp & Hs & Hf).
    unfold mbind, result_bind. simpl.
    assert (Forall well_dated sorted) as Hd by (by rewrite Hp).
    destruct (insert_desc_spec t sorted Ht Hd) as (l' & -> & Hp' & Hs' & Hf').
    exists l'. split_and!; [done| |by apply Hs'|].
    + by rewrite Hp', Hp.
    + intros s. by rewrite Hf', !filter_cons, Hf.
Qed.

Lemma merge_batches_first all_batches :
  Forall (λ t, tw_id t ≠ "") (concat all_batches) →
  merge_batches all_batches = first_occurrences (concat all_batches).
Proof.
  intros Hall. unfold merge_batches, first_occurrences.
  rewrite foldl_merge_concat.
  change (∅ : gset string) with (list_to_set [] : gset string).
  by rewrite merge_step_unseen.
Qed.

(** The merge, on buffers whose records have an identifier and a string
    creation timestamp, and for a limit that is not negative. *)
Lemma merge_results_spec all_batches all_profiles limit :
  (0 ≤ limit)%Z →
  Forall (λ t, tw_id t ≠ "" ∧ well_dated t) (concat all_batches) →
  merge_batches all_batches = first_occurrences (concat all_batches) ∧
  ∃ sorted,
    sort_desc (merge_batches all_batches) = Ok sorted ∧
    sorted ≡ₚ first_occurrences (concat all_batches) ∧
    StronglySorted not_older sorted ∧
    (∀ s, filter (λ t, created t = s) sorted
          = filter (λ t, created t = s) (first_occurrences (concat all_batches))) ∧
    NoDup (tw_id <$> sorted) ∧
    merge_results all_batches all_profiles limit
    = rmap (mkResult (take (Z.to_nat limit) sorted)) (best_profile all_profiles) ∧
    ∀ r, merge_results all_batches all_profiles limit = Ok r →
         res_tweets r = take (Z.to_nat limit) sorted ∧
         NoDup (tw_id <$> res_tweets r) ∧
         (length (res_tweets r) ≤ Z.to_nat limit)%nat.
Proof.
  intros Hlim Hall.
  assert (merge_batches all_batches = first_occurrences (concat all_batches))
    as Hm.
  { apply merge_batches_first.
    eapply Forall_impl; [exact Hall|]. by intros t [? _]. }
  split; [done|].
  assert (Forall well_dated (first_occurrences (concat all_batches))) as Hd.
  { apply Forall_forall. intros t Ht.
    destruct (unseen_fresh (concat all_batches) []) as [_ Hf].
    destruct (Hf t Ht) as [_ Hin].
    rewrite Forall_forall in Hall. by destruct (Hall t Hin). }
  destruct (sort_desc_spec _ Hd) as (sorted & Hs & Hp & Hss & Hf).
  assert (NoDup (tw_id <$> sorted)) as Hnd.
  { rewrite Hp. apply unseen_fresh. }
  assert (merge_results all_batches all_profiles limit
          = rmap (mkResult (take (Z.to_nat limit) sorted))
                 (best_profile all_profiles)) as Hr.
  { unfold merge_results, mbind, result_bind. rewrite Hm, Hs. simpl.
    unfold slice_to. assert ((0 <=? limit)%Z = true) as -> by lia.
    by destruct (best_profile all_profiles). }
  exists sorted. rewrite Hm. split_and!; try done.
  intros r Hok. rewrite Hr in Hok.
  destruct (best_profile all_profiles) as [best|]; simpl in Hok; [|done].
  injection Hok as <-. simpl. split_and!; [done| |].
  - rewrite fmap_take. eapply sublist_NoDup; [exact Hnd|apply sublist_take].
  - rewrite length_take. lia.
Qed.
End merge_facts.

(** ** The worker pool runs one session on every queued proxy *)

Section run_facts.
Import TwitterScraper.
Variable behave : string → ending.
Variable s0 : scraper.
Variable n_workers : nat.

Local Abbreviation q0 := (ProxyQueue._q (pq s0)).

Lemma begin_settled k finished url :
  q0 !! k = Some url →
  begin_session (settled behave s0 k finished)
  = (Some url, settled behave s0 (S k) finished).
Proof.
  intros Hk. unfold begin_session, ProxyQueue.checkout, settled. simpl.
  rewrite (drop_S _ _ _ Hk). simpl. by rewrite Nat.add_succ_r.
Qed.

Lemma end_settled k finished url :
  end_session url (behave url) (settled behave s0 k finished)
  = (ending_result (behave url), settled behave s0 k (finished ++ [url])).
Proof.
  unfold settled. rewrite !foldl_app. simpl.
  set (m := foldl _ (ProxyQueue._stats (pq s0)) finished).
  set (h := foldl _ (health s0) finished).
  unfold end_session, report, ProxyQueue.record, record_stats, ending_count.
  destruct (behave url) as [e|tw pf e|e]; simpl; by destruct (m !! url).
Qed.

Lemma start_tasks_at waiting :
  ∀ k finished inflight,
    waiting = (length q0 - k)%nat → (k ≤ length q0)%nat →
    ∃ j, (k + j ≤ length q0)%nat ∧
         start_tasks n_workers waiting (pool_at behave s0 k finished inflight)
         = ((length q0 - (k + j))%nat,
            pool_at behave s0 (k + j) finished (inflight ++ take j (drop k q0))) ∧
         ((k + j)%nat = length q0 ∨ (n_workers ≤ length inflight + j)%nat).
Proof.
  induction waiting as [|w IH]; intros k finished inflight Hw Hk.
  - exists O. rewrite Nat.add_0_r, app_nil_r. split_and!; [done| |left; lia].
    simpl. f_equal. lia.
  - simpl. destruct (length inflight <? n_workers)%nat eqn:Hfree.
    + apply Nat.ltb_lt in Hfree.
      destruct (lookup_lt_is_Some_2 q0 k) as [url Hu]; [lia|].
      rewrite (begin_settled _ _ _ Hu).
      destruct (IH (S k) finished (inflight ++ [url])) as (j & Hj & Heq & Hor);
        [lia|lia|].
      exists (S j). split_and!; [lia| |].
      * unfold pool_at in *. simpl in *.
        rewrite Heq, (drop_S _ _ _ Hu). simpl.
        rewrite <- app_assoc. simpl.
        by replace (k + S j)%nat with (S (k + j))%nat by lia.
      * rewrite length_app in Hor. simpl in Hor. destruct Hor; [left|right]; lia.
    + apply Nat.ltb_ge in Hfree. exists O.
      rewrite Nat.add_0_r, app_nil_r. split_and!; [done| |right; lia].
      f_equal. lia.
Qed.

Lemma run_tasks_at fuel :
  (0 < n_workers)%nat →
  ∀ choices k finished inflight,
    (k ≤ length q0)%nat →
    take k q0 ≡ₚ finished ++ inflight →
    (length q0 - k + length inflight ≤ fuel)%nat →
    ∃ order, order ≡ₚ q0 ∧
      run_tasks behave n_workers fuel choices (length q0 - k)
        (pool_at behave s0 k finished inflight)
      = (O, pool_at behave s0 (length q0) order []).
Proof.
  intros Hnw. induction fuel as [|fuel IH];
    intros choices k finished inflight Hk Hp Hfuel.
  - assert (k = length q0) as -> by lia.
    destruct inflight; [|simpl in Hfuel; lia].
    exists finished. rewrite app_nil_r, take_ge in Hp by done.
    split; [done|]. simpl. f_equal. lia.
  - simpl.
    destruct (start_tasks_at (length q0 - k) k finished inflight eq_refl Hk)
      as (j & Hj & -> & Hor).
    set (inflight' := inflight ++ take j (drop k q0)) in *.
    assert (take (k + j) q0 ≡ₚ finished ++ inflight') as Hp'.
    { unfold inflight'. by rewrite <- take_take_drop, Hp, app_assoc. }
    assert (length inflight' = (length inflight + j)%nat) as Hlen.
    { unfold inflight'. rewrite length_app, length_take, length_drop. lia. }
    simpl. destruct inflight' as [|first rest] eqn:Hin.
    + destruct Hor as [Hall|Hge]; [|simpl in Hlen; lia].
      exists finished. rewrite Hall, take_ge, app_nil_r in Hp' by done.
      split; [done|]. rewrite Hall. f_equal. lia.
    + rewrite <- Hin in *.
      set (i := (hd O choices mod length inflight')%nat).
      assert (i < length inflight')%nat as Hi.
      { apply Nat.mod_upper_bound. rewrite Hin. simpl. lia. }
      destruct (lookup_lt_is_Some_2 inflight' i Hi) as [url Hu].
      rewrite (nth_lookup_Some _ _ first _ Hu), end_settled.
      unfold collect. simpl.
      change (mkPoolRun (settled behave s0 (k + j) (finished ++ [url]))
                (delete i inflight')
                (((λ url, (ending_result (behave url)).1) <$> finished)
                 ++ [(ending_result (behave url)).1])
                (omap (λ url, (ending_result (behave url)).2) finished
                 ++ option_list (ending_result (behave url)).2))
        with (mkPoolRun (settled behave s0 (k + j) (finished ++ [url]))
                (delete i inflight')
                (((λ url, (ending_result (behave url)).1) <$> finished)
                 ++ ((λ url, (ending_result (behave url)).1) <$> [url]))
                (omap (λ url, (ending_result (behave url)).2) finished
                 ++ omap (λ url, (ending_result (behave url)).2) [url])).
      rewrite <- fmap_app, <- omap_app.
      apply (IH (tl choices) (k + j)%nat (finished ++ [url]) (delete i inflight'));
        [done| |].
      * rewrite Hp', <- app_assoc. simpl. f_equiv. by apply delete_Permutation.
      * rewrite length_delete by eauto. lia.
Qed.
End run_facts.

(** ** [_parallel_scrape] *)

Section scrape_facts.
Import TwitterScraper.

Lemma settled_start behave s : settled behave s O [] = s.
Proof.
  destruct s as [[q m total] h sid]. unfold settled. simpl.
  by rewrite Nat.add_0_r.
Qed.

(** With a positive parallelism, a call on a pool that is not empty runs
    one session on every queued proxy, each to its end, and merges what
    the tasks return in the order they complete. *)
Lemma parallel_scrape_settles cfg behave choices limit s :
  (0 < max_parallel_sessions cfg)%Z →
  ProxyQueue.remaining (pq s) ≠ O →
  ∃ order, order ≡ₚ ProxyQueue._q (pq s) ∧
    _parallel_scrape cfg behave choices limit s
    = (merge_results ((λ url, (ending_result (behave url)).1) <$> order)
         (omap (λ url, (ending_result (behave url)).2) order) limit,
       settled behave s (length (ProxyQueue._q (pq s))) order).
Proof.
  intros Hw Hn. unfold _parallel_scrape.
  destruct (Nat.eqb_spec (ProxyQueue.remaining (pq s)) 0); [done|].
  assert ((max_parallel_sessions cfg <=? 0)%Z = false) as -> by lia.
  destruct (run_tasks_at behave s (Z.to_nat (max_parallel_sessions cfg))
              (ProxyQueue.remaining (pq s)) ltac:(lia) choices O [] [])
    as (order & Hp & Hrun); [lia|done|unfold ProxyQueue.remaining; simpl; lia|].
  exists order. split; [done|].
  unfold pool_at in Hrun. simpl in Hrun.
  rewrite settled_start, Nat.sub_0_r in Hrun.
  unfold ProxyQueue.remaining in *. by rewrite Hrun.
Qed.

(** C5, as amended.  A scrape call on an empty pool raises nothing: it
    returns the empty result, no posts and no profile, and leaves the
    scraper as it was; no session is run. *)
Theorem empty_pool_returns_empty cfg behave choices limit s :
  ProxyQueue.remaining (pq s) = O →
  _parallel_scrape cfg behave choices limit s
  = (Ok {| res_tweets := []; res_profile := None |}, s) ∧
  scrape_tweets cfg behave choices limit s = (Ok [], s).
Proof.
  intros Hn. unfold scrape_tweets, _parallel_scrape. by rewrite Hn.
Qed.
End scrape_facts.

Lemma empty_pool_returns_empty_witness :
  ProxyQueue.remaining (TwitterScraper.pq empty_scraper) = O ∧
  TwitterScraper._parallel_scrape sample_config no_session [] 10 empty_scraper
  = (Ok (TwitterScraper.mkResult [] None), empty_scraper).
Proof.
  assert (ProxyQueue.remaining (TwitterScraper.pq empty_scraper) = O) as H
    by reflexivity.
  split; [exact H|].
  apply (empty_pool_returns_empty sample_config no_session [] 10 empty_scraper H).
Defined.

(** The claim C5 as it is written fails: on an empty pool the call
    returns, and what it returns is no exception. *)
Lemma empty_pool_raises_nothing :
  ProxyQueue.remaining (TwitterScraper.pq empty_scraper) = O ∧
  ¬ ∃ e, (TwitterScraper._parallel_scrape sample_config no_session [] 10
            empty_scraper).1 = Raise e.
Proof.
  split; [reflexivity|]. intros [e He]. vm_compute in He. discriminate.
Qed.

(** ** The merge at the end of a run *)

Section merged_run_facts.
Import TwitterScraper.

Lemma buffers_Forall (P : tweet → Prop) behave order :
  (∀ url, url ∈ order → Forall P (ending_result (behave url)).1) →
  Forall P (concat (buffers_of behave order)).
Proof.
  intros H. apply Forall_concat, Forall_fmap, Forall_forall.
  intros url Hin. by apply H.
Qed.

(** C3, as amended.  A scrape call with a positive parallelism, on a
    pool that is not empty, with a limit that is not negative, in which
    every buffered record has an identifier and a string creation
    timestamp: the call runs one session on every queued proxy, and the
    post list it returns is the concatenation of the session buffers, in
    the order the results were collected, reduced to the first occurrence
    of each post identifier, put in descending order of the
    creation-timestamp string with equal timestamps left in their order,
    and cut to its first [limit] records.  No identifier occurs twice in
    it.  The call returns unless the choice of the profile raises. *)
Theorem merge_dedups_sorts_truncates cfg behave choices limit s :
  (0 < max_parallel_sessions cfg)%Z →
  ProxyQueue.remaining (pq s) ≠ O →
  (0 ≤ limit)%Z →
  (∀ url, url ∈ ProxyQueue._q (pq s) →
     Forall (λ t, tw_id t ≠ "" ∧ well_dated t) (ending_result (behave url)).1) →
  ∃ order sorted,
    order ≡ₚ ProxyQueue._q (pq s) ∧
    sort_desc (first_occurrences (concat (buffers_of behave order))) = Ok sorted ∧
    sorted ≡ₚ first_occurrences (concat (buffers_of behave order)) ∧
    StronglySorted not_older sorted ∧
    (∀ stamp,
       filter (λ t, created t = stamp) sorted
       = filter (λ t, created t = stamp)
           (first_occurrences (concat (buffers_of behave order)))) ∧
    NoDup (tw_id <$> sorted) ∧
    (_parallel_scrape cfg behave choices limit s).1
    = rmap (mkResult (take (Z.to_nat limit) sorted))
           (best_profile (profiles_of behave order)) ∧
    ∀ r, (_parallel_scrape cfg behave choices limit s).1 = Ok r →
         res_tweets r = take (Z.to_nat limit) sorted ∧
         NoDup (tw_id <$> res_tweets r) ∧
         (length (res_tweets r) ≤ Z.to_nat limit)%nat.
Proof.
  intros Hw Hn Hlim Hall.
  destruct (parallel_scrape_settles cfg behave choices limit s Hw Hn)
    as (order & Hp & Heq).
  fold (buffers_of behave order) (profiles_of behave order) in Heq.
  assert (Forall (λ t, tw_id t ≠ "" ∧ well_dated t)
            (concat (buffers_of behave order))) as Hbuf.
  { apply buffers_Forall. intros url Hin. apply Hall. by rewrite <- Hp. }
  destruct (merge_results_spec (buffers_of behave order)
              (profiles_of behave order) limit Hlim Hbuf)
    as (Hm & sorted & Hs & Hperm & Hss & Hstab & Hnd & Hres & Hok).
  rewrite Hm in Hs.
  exists order, sorted. rewrite Heq. simpl.
  split_and!; done.
Qed.
End merged_run_facts.

Lemma merge_dedups_sorts_truncates_witness :
  (0 < max_parallel_sessions sample_config)%Z ∧
  ProxyQueue.remaining (TwitterScraper.pq scenario_scraper) ≠ O ∧
  (0 ≤ 5)%Z ∧
  buffers_of batches_behave (ProxyQueue._q (TwitterScraper.pq scenario_scraper))
  = sample_batches ∧
  Forall (λ t, tw_id t ≠ "" ∧ well_dated t) (concat sample_batches) ∧
  ∃ r, (TwitterScraper._parallel_scrape sample_config batches_behave
          [O; O; O] 5 scenario_scraper).1 = Ok r ∧
       (tw_id <$> TwitterScraper.res_tweets r) = ["1002"; "1003"; "1001"] ∧
       (created <$> TwitterScraper.res_tweets r)
       = ["2024-06-01T00:00:00"; "2024-03-01T00:00:00"; "2024-01-01T00:00:00"] ∧
       (tw_scraped_at <$> TwitterScraper.res_tweets r)
       = ["2024-07-01T10:00:01"; "2024-07-01T10:00:05"; "2024-07-01T10:00:00"] ∧
       NoDup (tw_id <$> TwitterScraper.res_tweets r).
Proof.
  assert (0 < max_parallel_sessions sample_config)%Z as H1 by (simpl; lia).
  assert (ProxyQueue.remaining (TwitterScraper.pq scenario_scraper) ≠ O) as H2
    by (vm_compute; lia).
  assert (0 ≤ 5)%Z as H3 by lia.
  assert (∀ url, url ∈ ProxyQueue._q (TwitterScraper.pq scenario_scraper) →
            Forall (λ t, tw_id t ≠ "" ∧ well_dated t)
              (ending_result (batches_behave url)).1) as H4.
  { intros url Hin. simpl in Hin.
    apply elem_of_cons in Hin as [->|Hin];
      [repeat (constructor; [split; [done|by eexists]|]); constructor|].
    apply elem_of_cons in Hin as [->|Hin]; [constructor|].
    apply elem_of_cons in Hin as [->|Hin];
      [repeat (constructor; [split; [done|by eexists]|]); constructor|].
    by apply elem_of_nil in Hin. }
  destruct (merge_dedups_sorts_truncates sample_config batches_behave
              [O; O; O] 5 scenario_scraper H1 H2 H3 H4)
    as (order & sorted & _ & _ & _ & _ & _ & _ & _ & Hres).
  split_and!; [exact H1|exact H2|exact H3|reflexivity| |].
  { repeat (constructor; [split; [done|by eexists]|]). constructor. }
  eexists. split; [vm_compute; reflexivity|].
  split_and!; [reflexivity|reflexivity|reflexivity|].
  eapply Hres. vm_compute; reflexivity.
Defined.

(** The claim C3 as it is written fails.  In a run whose sessions buffer
    two records, one of them without a creation timestamp, the sort
    raises [TypeError] and the call returns no post list at all.  And with
    the limit -1, the run on the sample buffers returns two of the three
    merged records. *)
Lemma scrape_run_raises_on_null_timestamp :
  _extract_tweets sample_clock undated_payload = Ok undated_records ∧
  (tw_created_at <$> undated_records) = [JStr "Mon Jan 01"; JNull] ∧
  (TwitterScraper._parallel_scrape sample_config undated_behave [O; O; O] 10
     scenario_scraper).1 = Raise TypeError ∧
  rmap (fmap tw_id ∘ TwitterScraper.res_tweets)
    (TwitterScraper._parallel_scrape sample_config batches_behave [O; O; O] (-1)
       scenario_scraper).1
  = Ok ["1002"; "1003"].
Proof.
  split_and!; vm_compute; reflexivity.
Qed.

(** ** The pool summary after a run *)

Section summary_facts.
Import TwitterScraper.








End summary_facts.

(** ** The end-to-end scenario *)

Section scenario_facts.
Import TwitterScraper.

Lemma concat_Permutation {A} (l k : list (list A)) :
  l ≡ₚ k → concat l ≡ₚ concat k.
Proof.
  induction 1 as [|x l k _ IH|x y l|l k m _ IH1 _ IH2]; simpl.
  - done.
  - by rewrite IH.
  - rewrite !app_assoc. f_equiv. apply Permutation_app_comm.
  - by rewrite IH1.
Qed.





End scenario_facts.



(** * More properties *)

(** ** [_is_tweet_id] *)

Lemma prefix_cons a s1 b s2 :
  String.prefix (String a s1) (String b s2)
  = if ascii_dec a b then String.prefix s1 s2 else false.
Proof. done. Qed.

Lemma isdigit_no_http s : isdigit s = true → startswith "http" s = false.
Proof.
  destruct s as [|c s]; [done|]. unfold isdigit, startswith.
  rewrite prefix_cons. cbn [forall_chars]. intros [Hc _]%andb_prop.
  destruct (ascii_dec "h" c) as [<-|]; [|done]. by vm_compute in Hc.
Qed.

(** X1.  On a string, [_is_tweet_id] is [str.isdigit]: the tests for the
    empty string and for a leading "http" change nothing.  On any other
    value it returns [False] when the value is falsy and raises
    [AttributeError] when it is truthy. *)
Theorem is_tweet_id_is_isdigit value :
  match value with
  | JStr s => _is_tweet_id value = Ok (isdigit s)
  | _ => _is_tweet_id value
         = if truthy value then Raise AttributeError else Ok false
  end.
Proof.
  destruct value as [|b|n|s|l|d]; unfold _is_tweet_id; simpl; try done.
  - by destruct b.
  - by destruct (n =? 0)%Z.
  - destruct (String.eqb_spec s "") as [->|Hne]; simpl; [done|].
    destruct (isdigit s) eqn:Hd.
    + by rewrite (isdigit_no_http s Hd).
    + by destruct (startswith "http" s).
  - by destruct l.
  - by destruct d.
Qed.

(** ** [clean_text] *)

Lemma prefix_amp_free old c s :
  is_amp c = true →
  amp_free s = true → String.prefix (String c old) s = false.
Proof.
  intros Hc. destruct s as [|c' s]; [done|]. unfold amp_free.
  rewrite prefix_cons. cbn [forall_chars]. intros [Hc' _]%andb_prop.
  destruct (ascii_dec c c') as [<-|]; [|done]. by rewrite Hc in Hc'.
Qed.

Lemma replace_amp_free old c new s :
  is_amp c = true → amp_free s = true → replace (String c old) new s = s.
Proof.
  intros Hc. unfold replace. induction s as [|c' s IH]; [done|].
  intros Hs. cbn -[String.prefix]. rewrite (prefix_amp_free old c _ Hc Hs).
  unfold amp_free in Hs. cbn [forall_chars] in Hs. apply andb_prop in Hs as [_ Hs].
  by rewrite IH.
Qed.

(** X2.  A text without an ampersand comes out of the entity decoding
    unchanged. *)
Theorem clean_text_without_entities text :
  amp_free text = true → clean_text text = text.
Proof.
  intros H. unfold clean_text.
  rewrite (replace_amp_free "amp;" "&"%char "&" text) by done.
  rewrite (replace_amp_free "lt;" "&"%char "<" text) by done.
  rewrite (replace_amp_free "gt;" "&"%char ">" text) by done.
  by rewrite (replace_amp_free "quot;" "&"%char quote_mark text).
Qed.

Lemma clean_text_without_entities_witness :
  amp_free "2 < 3 > 1" = true ∧ clean_text "2 < 3 > 1" = "2 < 3 > 1" ∧
  clean_text "a &amp;lt; b" = "a < b".
Proof.
  assert (amp_free "2 < 3 > 1" = true) as H by reflexivity.
  split_and!; [exact H|apply (clean_text_without_entities _ H)|reflexivity].
Defined.

(** ** [_deep_find] and [_find_user] *)

Lemma find_first_some {A} (f : A → option dict) (l : list A) r :
  find_first f l = Some r → ∃ x, x ∈ l ∧ f x = Some r.
Proof.
  induction l as [|x l IH]; cbn -[truthy]; [done|].
  destruct (f x) as [r'|] eqn:Hf.
  - destruct (truthy (JObj r')).
    + intros [= <-]. exists x. split; [left|done].
    + intros (y & Hy & Hr)%IH. exists y. split; [by right|done].
  - intros (y & Hy & Hr)%IH. exists y. split; [by right|done].
Qed.

Lemma deep_find_below node : ∀ depth found,
  _deep_find node depth = Some found →
  looks_like_user found = true ∧
  ∃ k, below (JObj found) k node ∧ (depth + Z.of_nat k ≤ 6)%Z.
Proof.
  induction node as [|b|n|s|l IH|d IH] using json_nested_ind;
    intros depth found; simpl; destruct (Z.ltb_spec 6 depth); try done.
  - intros (x & Hx & Hf)%find_first_some.
    rewrite Forall_forall in IH.
    destruct (IH x Hx _ _ Hf) as (Hu & k & Hb & Hk).
    split; [done|]. exists (S k). split; [by eapply below_item|lia].
  - destruct (looks_like_user d) eqn:Hu.
    + intros [= <-]. split; [done|]. exists O. split; [constructor|lia].
    + intros (kv & Hkv & Hf)%find_first_some.
      rewrite Forall_forall in IH.
      destruct (IH kv Hkv _ _ Hf) as (Hu' & k & Hb & Hk).
      split; [done|]. exists (S k). split; [by eapply below_value|lia].
Qed.

(** X3.  The last-resort author search returns only a dict that has a
    truthy handle and a truthy name and no truthy full text, found at most
    six levels below the node the search started from. *)
Theorem deep_find_bounded node depth found :
  _deep_find node depth = Some found →
  looks_like_user found = true ∧
  ∃ k, below (JObj found) k node ∧ (depth + Z.of_nat k ≤ 6)%Z.
Proof. apply deep_find_below. Qed.

Lemma deep_find_bounded_witness :
  _deep_find (authored_post 5) 0 = Some sample_author ∧
  looks_like_user sample_author = true ∧
  _deep_find (authored_post 6) 0 = None ∧
  rmap (fmap tw_author) (_extract_tweets sample_clock (authored_post 5))
  = Ok [JStr "ann"] ∧
  rmap (fmap tw_author) (_extract_tweets sample_clock (authored_post 6))
  = Ok [JStr ""].
Proof.
  assert (_deep_find (authored_post 5) 0 = Some sample_author) as H
    by reflexivity.
  destruct (deep_find_bounded _ _ _ H) as (Hu & _).
  split_and!; [exact H|exact Hu|reflexivity|reflexivity|reflexivity].
Defined.

Lemma first_user_handle cs d :
  first_user cs = Some d → truthy (dict_get "screen_name" JNull d) = true.
Proof.
  induction cs as [|c cs IH]; simpl; [done|].
  destruct c as [| | | | |d']; try done.
  destruct (truthy (dict_get "screen_name" JNull d')) eqn:Ht; [|done].
  by intros [= <-].
Qed.

Lemma find_user_handle obj user :
  _find_user obj = Ok user →
  user = [] ∨ truthy (dict_get "screen_name" JNull user) = true.
Proof.
  unfold _find_user, mbind, result_bind.
  destruct (mapM _ user_paths) as [cs|]; cbn [rbind]; [|done].
  destruct (first_user cs) as [c|] eqn:Hc.
  - intros [= <-]. right. by eapply first_user_handle.
  - destruct (_deep_find (JObj obj) 0) as [deep|] eqn:Hd; [|intros [= <-]; by left].
    destruct (deep_find_below _ _ _ Hd) as (Hu & _).
    destruct (truthy (JObj deep)) eqn:Hdeep; intros [= <-]; [right|by left].
    unfold looks_like_user in Hu.
    by apply andb_prop in Hu as [[? _]%andb_prop _].
Qed.

Lemma dict_get_truthy k d dflt :
  truthy (dict_get k JNull d) = true → dict_get k dflt d = dict_get k JNull d.
Proof. unfold dict_get. by destruct (lookup_key k d). Qed.

Lemma build_tweet_author stamp d leg rid text t :
  build_tweet stamp d leg rid text = Ok t →
  ∃ user, _find_user d = Ok user ∧
    tw_author t = dict_get "screen_name" (JStr "") user ∧
    tw_author_name t = dict_get "name" (JStr "") user ∧
    tw_url t = (if truthy (tw_author t) then UserStatus (tw_author t) rid
                else IdStatus rid).
Proof.
  unfold build_tweet, mbind, result_bind. intros H.
  destruct (_find_user d) as [user|] eqn:Hu; simpl in H; [|done].
  repeat match type of H with
         | rbind _ ?m = _ => destruct m eqn:?; simpl in H; [|discriminate]
         end.
  injection H as <-. by exists user.
Qed.

(** X4.  The author handle of a returned record is either the empty
    string, when no author was found, or a truthy value; the permalink is
    built from the handle exactly when the handle is truthy, and from the
    identifier alone otherwise. *)
Theorem record_author_and_permalink now data out t :
  _extract_tweets now data = Ok out →
  t ∈ out →
  (tw_author t = JStr "" ∧ tw_author_name t = JStr "" ∧
   tw_url t = IdStatus (tw_id t)) ∨
  (truthy (tw_author t) = true ∧
   tw_url t = UserStatus (tw_author t) (tw_id t)).
Proof.
  intros Hx Ht. destruct (extract_tweets_grows _ _ _ Hx) as [new T _ _ _ O _ _].
  simpl in T. subst new. destruct (O t Ht) as (d & _ & _ & rid & text & k & _ & Hb).
  destruct (build_tweet_fields _ _ _ _ _ _ Hb) as (Hid & _).
  destruct (build_tweet_author _ _ _ _ _ _ Hb) as (user & Hu & Ha & Hn & Hurl).
  rewrite Hid. destruct (find_user_handle _ _ Hu) as [->|Htr].
  - left. rewrite Ha in *. by rewrite Hurl, Hn.
  - right. rewrite (dict_get_truthy _ _ (JStr "") Htr) in Ha.
    rewrite <- Ha in Htr. by rewrite Hurl, Htr.
Qed.

Lemma record_author_and_permalink_witness :
  _extract_tweets sample_clock ghost_payload = Ok ghost_records ∧
  ghost_first ∈ ghost_records ∧
  tw_author ghost_first = JStr "" ∧ tw_url ghost_first = IdStatus "123".
Proof.
  assert (_extract_tweets sample_clock ghost_payload = Ok ghost_records) as Hx
    by (vm_compute; reflexivity).
  assert (ghost_first ∈ ghost_records) as Ht by (vm_compute; constructor).
  destruct (record_author_and_permalink _ _ _ _ Hx Ht) as [(Ha & _ & Hu)|[Ha _]].
  - split_and!; [exact Hx|exact Ht|exact Ha|exact Hu].
  - vm_compute in Ha. discriminate.
Defined.

(** ** A list payload *)



(** ** [_extract_user_profile] *)

Lemma first_profile_some {A} (f : A → result (option profile)) (l : list A) p :
  first_profile f l = Ok (Some p) → ∃ x, x ∈ l ∧ f x = Ok (Some p).
Proof.
  induction l as [|x l IH]; simpl; [done|].
  destruct (f x) as [[q|]|] eqn:Hf; simpl; [| |done].
  - intros [= <-]. exists x. split; [left|done].
  - intros (y & Hy & Hp)%IH. exists y. split; [by right|done].
Qed.

(** X6.  A profile that the profile extraction returns is built from a
    node of the payload whose legacy body has a truthy handle and no truthy
    full text: a post body is never returned as a profile.  The handle and
    the identifier of the record are those of that node. *)
Theorem profile_is_a_user_node now data p :
  _extract_user_profile now data = Ok (Some p) →
  truthy (pf_username p) = true ∧
  ∃ d leg,
    subnode (JObj d) data ∧ dict_get "legacy" (JObj []) d = JObj leg ∧
    truthy (dict_get "full_text" JNull leg) = false ∧
    pf_username p = dict_get "screen_name" (JStr "") leg ∧
    pf_id p = dict_get "rest_id" (JStr "") d.
Proof.
  unfold _extract_user_profile. revert p.
  induction data as [|b|n|s|l IH|d IH] using json_nested_ind; intros p; simpl;
    try done.
  - intros (x & Hx & Hp)%first_profile_some. rewrite Forall_forall in IH.
    destruct (IH x Hx p Hp) as (Ht & d & leg & Hs & Hrest).
    split; [done|]. exists d, leg. split; [by eapply subnode_item|done].
  - destruct (dict_get "legacy" (JObj []) d) as [| | | | |leg] eqn:Hleg; try done.
    destruct (truthy (dict_get "screen_name" JNull leg)) eqn:Hsn; simpl.
    + destruct (truthy (dict_get "full_text" JNull leg)) eqn:Hft; simpl.
      * intros (kv & Hkv & Hp)%first_profile_some. rewrite Forall_forall in IH.
        destruct (IH kv Hkv p Hp) as (Ht & d' & leg' & Hs & Hrest).
        split; [done|]. exists d', leg'. split; [by eapply subnode_value|done].
      * unfold build_profile, mbind, result_bind.
        destruct (pinned_tweet_id leg); simpl; [|done]. intros [= <-]. simpl.
        rewrite (dict_get_truthy _ _ (JStr "") Hsn). split; [done|].
        exists d, leg. split_and!; try done; [constructor|].
        symmetry. by apply dict_get_truthy.
    + intros (kv & Hkv & Hp)%first_profile_some. rewrite Forall_forall in IH.
      destruct (IH kv Hkv p Hp) as (Ht & d' & leg' & Hs & Hrest).
      split; [done|]. exists d', leg'. split; [by eapply subnode_value|done].
Qed.

Lemma profile_is_a_user_node_witness :
  ∃ p, _extract_user_profile sample_clock profile_payload = Ok (Some p) ∧
       pf_username p = JStr "ann" ∧ pf_id p = JStr "42" ∧
       pf_followers p = JNum 10 ∧ truthy (pf_username p) = true.
Proof.
  eexists. split; [vm_compute; reflexivity|].
  split_and!; [reflexivity|reflexivity|reflexivity|].
  refine (proj1 (profile_is_a_user_node sample_clock profile_payload _ _)).
  vm_compute; reflexivity.
Defined.

(** ** The response listener *)

Section listener_facts.
Import StickySession.

Lemma profile_branch_keeps now resp w :
  _bucket (profile_branch now resp w) = _bucket w ∧
  rate_limited (profile_branch now resp w) = rate_limited w ∧
  (∀ p, _profile w = Some p → _profile (profile_branch now resp w) = Some p).
Proof.
  unfold profile_branch.
  destruct (_ ← resp_json resp; _) as [[p|]|]; try done.
  destruct (_profile w) eqn:Hp; simpl; split_and!; try done.
  intros; congruence.
Qed.

Lemma tweet_branch_grows now resp w :
  (tweet_branch now resp w = w ∨
   tweet_branch now resp w = set_rate_limited w ∨
   ∃ data out,
     resp_json resp = Ok data ∧ body_rate_limited data = Ok false ∧
     _extract_tweets now data = Ok out ∧
     tweet_branch now resp w
     = mkWorld (rate_limited w) (_bucket w ++ out) (_profile w)).
Proof.
  unfold tweet_branch. destruct (resp_json resp) as [data|]; [|by left].
  destruct (body_rate_limited data) as [[]|] eqn:Hb; [right; by left| |by left].
  destruct (_extract_tweets now data) as [out|] eqn:Ho; [|by left].
  right; right. by exists data, out.
Qed.

(** X7.  Across any sequence of responses the listener only appends to
    the bucket, never clears the rate-limit signal, and never replaces a
    profile once one is stored. *)
Theorem listener_only_adds events : ∀ w,
  _bucket w `prefix_of` _bucket (listen events w) ∧
  (rate_limited w = true → rate_limited (listen events w) = true) ∧
  (∀ p, _profile w = Some p → _profile (listen events w) = Some p).
Proof.
  induction events as [|[now resp] events IH]; intros w; [done|].
  unfold listen in *. simpl.
  assert (_bucket w `prefix_of` _bucket (on_response now resp w) ∧
          (rate_limited w = true → rate_limited (on_response now resp w) = true) ∧
          (∀ p, _profile w = Some p → _profile (on_response now resp w) = Some p))
    as (H1 & H2 & H3).
  { unfold on_response. destruct (_ && _); [done|].
    destruct (any_in USER_PROFILE_PATTERNS _).
    { destruct (profile_branch_keeps now resp w) as (-> & -> & ?). done. }
    destruct (negb _); [done|].
    destruct (tweet_branch_grows now resp w)
      as [->|[->|(data & out & _ & _ & _ & ->)]]; try done.
    simpl. split; [by eexists|done]. }
  destruct (IH (on_response now resp w)) as (I1 & I2 & I3).
  split_and!; [by etrans|auto|auto].
Qed.

(** X8.  A response from a profile endpoint never adds a post to the
    bucket, whatever else its URL matches and whatever its body holds, and
    unless it is a 429 it leaves the rate-limit signal as it is. *)
Theorem profile_response_adds_no_post now resp w :
  any_in USER_PROFILE_PATTERNS (resp_url resp) = true →
  _bucket (on_response now resp w) = _bucket w ∧
  (resp_status resp ≠ 429 →
   rate_limited (on_response now resp w) = rate_limited w).
Proof.
  intros Hp. unfold on_response. rewrite Hp.
  destruct (profile_branch_keeps now resp w) as (Hb & Hr & _).
  destruct (Z.eqb_spec (resp_status resp) 429) as [He|Hne]; simpl.
  - destruct (_ || _); [done|]. by split.
  - by split.
Qed.

Lemma profile_response_adds_no_post_witness :
  any_in USER_PROFILE_PATTERNS (resp_url profile_response) = true ∧
  any_in INTERCEPT_PATTERNS (resp_url profile_response) = true ∧
  rmap (fmap tw_id) (resp_json profile_response ≫= _extract_tweets sample_clock)
  = Ok ["555"] ∧
  _bucket (on_response sample_clock profile_response idle_world) = [] ∧
  (pf_username <$> _profile (on_response sample_clock profile_response idle_world))
  = Some (JStr "ann").
Proof.
  assert (any_in USER_PROFILE_PATTERNS (resp_url profile_response) = true)
    as H by reflexivity.
  destruct (profile_response_adds_no_post sample_clock profile_response
              idle_world H) as [Hb _].
  split_and!; [exact H|reflexivity|reflexivity|exact Hb|reflexivity].
Defined.

Lemma on_response_bucket now resp w :
  _bucket (on_response now resp w) = _bucket w ∨
  ∃ data out,
    resp_json resp = Ok data ∧ body_rate_limited data = Ok false ∧
    _extract_tweets now data = Ok out ∧
    _bucket (on_response now resp w) = _bucket w ++ out ∧
    rate_limited (on_response now resp w) = rate_limited w.
Proof.
  unfold on_response. destruct (_ && _); [by left|].
  destruct (any_in USER_PROFILE_PATTERNS _).
  { left. apply profile_branch_keeps. }
  destruct (negb _); [by left|].
  destruct (tweet_branch_grows now resp w)
    as [->|[->|(data & out & ? & ? & ? & ->)]]; [by left|by left|].
  right. by exists data, out.
Qed.

(** X9.  One response either leaves the bucket as it is or appends to it
    everything that post extraction returns for its body, and then the
    body held no rate-limit error and the signal is left alone.  A response
    that makes the extraction raise, or that sets the signal, adds
    nothing. *)
Theorem response_is_all_or_nothing now resp w :
  (_bucket (on_response now resp w) = _bucket w ∨
   ∃ data out,
     resp_json resp = Ok data ∧ body_rate_limited data = Ok false ∧
     _extract_tweets now data = Ok out ∧
     _bucket (on_response now resp w) = _bucket w ++ out ∧
     rate_limited (on_response now resp w) = rate_limited w) ∧
  (rate_limited w = false → rate_limited (on_response now resp w) = true →
   _bucket (on_response now resp w) = _bucket w) ∧
  (∀ data e, resp_json resp = Ok data → _extract_tweets now data = Raise e →
             _bucket (on_response now resp w) = _bucket w).
Proof.
  pose proof (on_response_bucket now resp w) as Hmain.
  split_and!; [done| |].
  - intros Hw Hw'. destruct Hmain as [?|(data & out & _ & _ & _ & _ & Hr)]; [done|].
    congruence.
  - intros data e Hd He.
    destruct Hmain as [?|(data' & out & Hd' & _ & Ho & _)]; [done|]. congruence.
Qed.

Lemma response_is_all_or_nothing_witness :
  rate_limited idle_world = false ∧
  rate_limited (on_response sample_clock limited_response idle_world) = true ∧
  _bucket (on_response sample_clock limited_response idle_world) = [] ∧
  resp_json broken_response = Ok null_legacy_payload ∧
  _extract_tweets sample_clock null_legacy_payload = Raise AttributeError ∧
  on_response sample_clock broken_response idle_world = idle_world ∧
  _bucket (on_response sample_clock timeline_response idle_world) = ghost_records.
Proof.
  destruct (response_is_all_or_nothing sample_clock limited_response idle_world)
    as (_ & Hlim & _).
  assert (rate_limited idle_world = false) as H1 by reflexivity.
  assert (rate_limited (on_response sample_clock limited_response idle_world)
          = true) as H2 by reflexivity.
  split_and!; [exact H1|exact H2|apply (Hlim H1 H2)|reflexivity|reflexivity
              |reflexivity|reflexivity].
Defined.

Lemma extract_ids_numeric now data out :
  _extract_tweets now data = Ok out → Forall numeric_id out.
Proof.
  intros Hx. destruct (extract_tweets_grows _ _ _ Hx) as [new T _ _ _ O _ _].
  simpl in T. subst new. apply Forall_forall. intros t Ht.
  destruct (O t Ht) as (d & _ & Hb).
  destruct (built_from_fields _ _ _ Hb) as (body & _ & Hi & _).
  destruct (is_tweet_id_true _ Hi) as (s & [= <-] & Hd & Hn & _). done.
Qed.

(** X10.  Every record that a session buffers has a non-empty
    identifier made of digits: the listener keeps this over any sequence of
    responses, so the merge never drops a buffered record for an empty
    identifier. *)
Theorem bucket_ids_numeric events : ∀ w,
  Forall numeric_id (_bucket w) → Forall numeric_id (_bucket (listen events w)).
Proof.
  induction events as [|[now resp] events IH]; intros w Hw; [done|].
  unfold listen in *. simpl. apply IH.
  destruct (on_response_bucket now resp w)
    as [->|(data & out & _ & _ & Ho & -> & _)]; [done|].
  apply Forall_app. split; [done|]. by eapply extract_ids_numeric.
Qed.
End listener_facts.

Lemma listener_only_adds_witness :
  StickySession.rate_limited
    (StickySession.mkWorld true [ghost_first] (Some (sample_profile "zed" 5)))
  = true ∧
  (tw_id <$> StickySession._bucket
     (listen [(sample_clock, timeline_response); (sample_clock, profile_response)]
        (StickySession.mkWorld true [ghost_first]
           (Some (sample_profile "zed" 5)))))
  = ["123"; "123"; "456"] ∧
  StickySession.rate_limited
    (listen [(sample_clock, timeline_response); (sample_clock, profile_response)]
       (StickySession.mkWorld true [ghost_first] (Some (sample_profile "zed" 5))))
  = true ∧
  StickySession._profile
    (listen [(sample_clock, timeline_response); (sample_clock, profile_response)]
       (StickySession.mkWorld true [ghost_first] (Some (sample_profile "zed" 5))))
  = Some (sample_profile "zed" 5).
Proof.
  destruct (listener_only_adds
              [(sample_clock, timeline_response); (sample_clock, profile_response)]
              (StickySession.mkWorld true [ghost_first]
                 (Some (sample_profile "zed" 5)))) as (_ & Hflag & Hprof).
  split_and!; [reflexivity|reflexivity|apply Hflag; reflexivity
              |apply Hprof; reflexivity].
Defined.

Lemma bucket_ids_numeric_witness :
  Forall numeric_id (StickySession._bucket idle_world) ∧
  (tw_id <$> StickySession._bucket
     (listen [ (sample_clock, timeline_response);
               (sample_clock, broken_response);
               (later_clock, timeline_response) ] idle_world))
  = ["123"; "456"; "123"; "456"] ∧
  Forall numeric_id
    (StickySession._bucket
       (listen [ (sample_clock, timeline_response);
                 (sample_clock, broken_response);
                 (later_clock, timeline_response) ] idle_world)).
Proof.
  assert (Forall numeric_id (StickySession._bucket idle_world)) as H
    by constructor.
  split_and!; [exact H|reflexivity|].
  apply (bucket_ids_numeric _ idle_world H).
Defined.

(** ** The calls of a session *)

Section session_chain_facts.
Import StickySession.
Variable cfg : Config.
Variable env : environment.
Variable w0 : world.

Lemma end_world_snoc tr : ∀ k w a w',
  end_world env k w (tr ++ [(a, w')]) = (env (k + length tr)%nat a w').1.
Proof.
  induction tr as [|[a1 w1] tr IH]; intros k w a w'; simpl.
  - by rewrite Nat.add_0_r.
  - by rewrite IH, Nat.add_succ_r.
Qed.

Lemma all_return_snoc tr : ∀ k w a,
  all_return env k w tr →
  (env (k + length tr)%nat a (end_world env k w tr)).2 = None →
  all_return env k w (tr ++ [(a, end_world env k w tr)]).
Proof.
  induction tr as [|[a1 w1] tr IH]; intros k w a; simpl.
  - rewrite Nat.add_0_r. by intros _ ?.
  - intros (-> & Hr & Hrest) He. split_and!; [done|done|].
    apply IH; [done|]. by rewrite Nat.add_succ_r in He.
Qed.

Lemma follows_snoc tr : ∀ k w a,
  all_return env k w tr → follows env k w (tr ++ [(a, end_world env k w tr)]).
Proof.
  induction tr as [|[a1 w1] tr IH]; intros k w a; simpl.
  - by intros _.
  - intros (-> & Hr & Hrest). split_and!; [done|done|]. by apply IH.
Qed.

Lemma all_return_follows tr : ∀ k w,
  all_return env k w tr → follows env k w tr.
Proof.
  induction tr as [|[a1 w1] tr IH]; intros k w; simpl; [done|].
  intros (-> & Hr & Hrest). split_and!; [done|done|]. by apply IH.
Qed.

Lemma follows_raise_last tr : ∀ k w i a w1 e,
  follows env k w tr → tr !! i = Some (a, w1) →
  (env (k + i)%nat a w1).2 = Some e → S i = length tr.
Proof.
  induction tr as [|[a1 w1'] tr IH]; intros k w i a w1 e; simpl; [done|].
  intros (-> & Hr & Hrest) Hi He. destruct i as [|i]; simpl in Hi.
  - injection Hi as -> ->. rewrite Nat.add_0_r in He.
    destruct tr; [done|]. rewrite Hr in He; done.
  - f_equal. eapply IH; [exact Hrest|exact Hi|].
    by rewrite Nat.add_succ_r in He.
Qed.

Lemma perform_chain a r :
  all_return env O w0 (trace r) →
  now_world r = end_world env O w0 (trace r) →
  match perform env a r with
  | (None, r') =>
      all_return env O w0 (trace r') ∧ now_world r' = end_world env O w0 (trace r')
  | (Some _, r') =>
      follows env O w0 (trace r') ∧ now_world r' = end_world env O w0 (trace r')
  end.
Proof.
  intros Hall Hw.
  assert (match (let '(w', e) := env (length (trace r)) a (now_world r) in
                 (e, {| now_world := w';
                        trace := trace r ++ [(a, now_world r)] |})) with
          | (None, r') =>
              all_return env O w0 (trace r')
              ∧ now_world r' = end_world env O w0 (trace r')
          | (Some _, r') =>
              follows env O w0 (trace r')
              ∧ now_world r' = end_world env O w0 (trace r')
          end) as Hgo.
  { destruct (env (length (trace r)) a (now_world r)) as [w' e] eqn:He.
    rewrite Hw in He |- *.
    destruct e as [e|]; simpl; rewrite end_world_snoc; simpl; rewrite He.
    - split; [|done]. by apply follows_snoc.
    - split; [|done]. apply all_return_snoc; [done|]. simpl. by rewrite He. }
  unfold perform. destruct a as [ticks| |]; try exact Hgo.
  destruct (ticks <? 0)%Z; [|exact Hgo].
  split; [|done]. by apply all_return_follows.
Qed.

Lemma scroll_loop_chain target pause left :
  ∀ turn r,
    all_return env O w0 (trace r) →
    now_world r = end_world env O w0 (trace r) →
    follows env O w0 (trace (scroll_loop env target pause left turn r)) ∧
    now_world (scroll_loop env target pause left turn r)
    = end_world env O w0 (trace (scroll_loop env target pause left turn r)).
Proof.
  induction left as [|left IH]; intros turn r Hall Hw; cbn -[perform].
  - split; [|done]. by apply all_return_follows.
  - destruct (rate_limited (now_world r)).
    { split; [|done]. by apply all_return_follows. }
    pose proof (perform_chain ScrollToBottom r Hall Hw) as H1.
    destruct (perform env ScrollToBottom r) as [[e|] r1]; [done|].
    destruct H1 as [Hall1 Hw1].
    pose proof (perform_chain (Sleep (pause turn)) r1 Hall1 Hw1) as H2.
    destruct (perform env (Sleep (pause turn)) r1) as [[e|] r2]; [done|].
    destruct H2 as [Hall2 Hw2].
    destruct (_ <=? _)%Z; [|by apply IH].
    split; [|done]. by apply all_return_follows.
Qed.

Lemma scrape_run_chain d target_url :
  follows env O w0 (trace (scrape_run cfg env d target_url w0)) ∧
  now_world (scrape_run cfg env d target_url w0)
  = end_world env O w0 (trace (scrape_run cfg env d target_url w0)).
Proof.
  unfold scrape_run. cbn -[perform].
  set (r0 := {| now_world := w0; trace := [] |}).
  assert (all_return env O w0 (trace r0)) as Hall0 by done.
  assert (now_world r0 = end_world env O w0 (trace r0)) as Hw0 by done.
  destruct (rate_limited w0); [done|].
  assert (match (if (0 <? stagger d)%Z then perform env (Sleep (stagger d)) r0
                 else (None, r0)) with
          | (None, r') =>
              all_return env O w0 (trace r')
              ∧ now_world r' = end_world env O w0 (trace r')
          | (Some _, r') =>
              follows env O w0 (trace r')
              ∧ now_world r' = end_world env O w0 (trace r')
          end) as H1.
  { destruct (0 <? stagger d)%Z; [|done]. by apply perform_chain. }
  destruct (if (0 <? stagger d)%Z then _ else _) as [[e|] r1]; [done|].
  destruct H1 as [Hall1 Hw1].
  destruct (rate_limited (now_world r1)).
  { split; [|done]. by apply all_return_follows. }
  pose proof (perform_chain (Goto target_url) r1 Hall1 Hw1) as H2.
  destruct (perform env (Goto target_url) r1) as [[e|] r2]; [done|].
  destruct H2 as [Hall2 Hw2].
  pose proof (perform_chain (Sleep (page_load_pause d)) r2 Hall2 Hw2) as H3.
  destruct (perform env (Sleep (page_load_pause d)) r2) as [[e|] r3]; [done|].
  destruct H3 as [Hall3 Hw3].
  by apply scroll_loop_chain.
Qed.

(** X11.  The blocking calls of a session form a chain: the first
    begins in the world [scrape] was called in, each next one in the world
    the one before it left, and a call that raises is the last call the
    session makes (after a navigation that times out there is no
    scrolling).  What [scrape] returns is the bucket and the profile as the
    last call left them. *)
Theorem session_stops_at_exception (d : draws) (target_url : string) :
  follows env O w0 (trace (scrape cfg env d target_url w0).2) ∧
  (∀ i a w1 e,
     trace (scrape cfg env d target_url w0).2 !! i = Some (a, w1) →
     (env i a w1).2 = Some e →
     S i = length (trace (scrape cfg env d target_url w0).2)) ∧
  (scrape cfg env d target_url w0).1
  = (_bucket (end_world env O w0 (trace (scrape cfg env d target_url w0).2)),
     _profile (end_world env O w0 (trace (scrape cfg env d target_url w0).2))).
Proof.
  destruct (scrape_run_chain d target_url) as [Hf Hw].
  unfold scrape. simpl. split_and!; [done| |by rewrite <- Hw].
  intros i a w1 e Hi He. by eapply (follows_raise_last _ O w0 i a w1 e).
Qed.

(** *** The scroll steps *)

Lemma scroll_loop_steps target pause left :
  ∀ turn r, ∃ ext,
    trace (scroll_loop env target pause left turn r) = trace r ++ ext ∧
    navigations ext = [] ∧
    (length (scroll_starts ext) ≤ left)%nat ∧
    (length ext ≤ 2 * left)%nat ∧
    (scroll_starts ext = [] ∨
     ∃ ws, scroll_starts ext = now_world r :: ws ∧ Forall (short_of target) ws).
Proof.
  induction left as [|left IH]; intros turn r; cbn -[perform].
  { exists []. rewrite app_nil_r. split_and!; [done|done|done|done|by left]. }
  destruct (rate_limited (now_world r)).
  { exists []. rewrite app_nil_r.
    split_and!; [done|done|simpl; lia|simpl; lia|by left]. }
  destruct (perform_trace env ScrollToBottom r) as [H1|H1].
  { unfold perform in H1. destruct (env _ _ _) as [w1 e1]. simpl in H1.
    apply (f_equal length) in H1. rewrite length_app in H1. simpl in H1. lia. }
  destruct (perform env ScrollToBottom r) as [[e|] r1]; simpl in H1.
  { exists [(ScrollToBottom, now_world r)].
    split_and!; [done|done|simpl; lia|simpl; lia|]. right. by exists []. }
  pose proof (perform_trace env (Sleep (pause turn)) r1) as H2.
  destruct (perform env (Sleep (pause turn)) r1) as [[e|] r2]; simpl in H2.
  { destruct H2 as [H2|H2]; rewrite H2, H1.
    - exists [(ScrollToBottom, now_world r)].
      split_and!; [done|done|simpl; lia|simpl; lia|]. right. by exists [].
    - exists [(ScrollToBottom, now_world r); (Sleep (pause turn), now_world r1)].
      rewrite <- app_assoc. split_and!; [done|done|simpl; lia|simpl; lia|].
      right. by exists []. }
  assert (∃ mid, trace r2 = trace r ++ (ScrollToBottom, now_world r) :: mid ∧
                 navigations mid = [] ∧ scroll_starts mid = [] ∧
                 (length mid ≤ 1)%nat) as (mid & Hr2 & Hn & Hs & Hl).
  { destruct H2 as [H2|H2]; rewrite H2, H1.
    - exists []. split_and!; done || (simpl; lia).
    - exists [(Sleep (pause turn), now_world r1)]. rewrite <- app_assoc.
      split_and!; done || (simpl; lia). }
  destruct (Z.leb_spec target (Z.of_nat (length (_bucket (now_world r2)))))
    as [Hreach|Hshort].
  { exists ((ScrollToBottom, now_world r) :: mid). split_and!; [done| | | |].
    - done.
    - change (scroll_starts ((ScrollToBottom, now_world r) :: mid))
        with (now_world r :: scroll_starts mid). rewrite Hs. simpl. lia.
    - simpl. lia.
    - right. exists []. split; [|done].
      change (scroll_starts ((ScrollToBottom, now_world r) :: mid))
        with (now_world r :: scroll_starts mid). by rewrite Hs. }
  destruct (IH (S turn) r2) as (ext & -> & Hn' & Hc' & Hl' & Hs').
  exists (((ScrollToBottom, now_world r) :: mid) ++ ext).
  rewrite Hr2, <- app_assoc.
  assert (scroll_starts (((ScrollToBottom, now_world r) :: mid) ++ ext)
          = now_world r :: scroll_starts ext) as Hss.
  { unfold scroll_starts at 1. rewrite omap_app.
    change (omap _ ((ScrollToBottom, now_world r) :: mid))
      with (now_world r :: scroll_starts mid). by rewrite Hs. }
  split_and!; [done| | | |].
  - unfold navigations at 1. rewrite omap_app.
    change (omap _ ((ScrollToBottom, now_world r) :: mid))
      with (navigations mid). fold (navigations ext). by rewrite Hn, Hn'.
  - rewrite Hss. simpl. lia.
  - rewrite length_app. simpl. lia.
  - right. rewrite Hss. exists (scroll_starts ext). split; [done|].
    destruct Hs' as [->|(ws & -> & Hws)]; [done|]. by constructor.
Qed.

(** X12.  A session makes at most [max_scrolls_per_session] scroll
    steps and at most one navigation, to the target; and every scroll step
    but the first began with fewer than [tweets_per_session] records in the
    bucket.  The first one is made whatever the bucket holds. *)
Theorem scroll_steps_bounded (d : draws) (target_url : string) :
  (length (scroll_starts (trace (scrape cfg env d target_url w0).2))
   ≤ Z.to_nat (max_scrolls_per_session cfg))%nat ∧
  Forall (short_of (tweets_per_session cfg))
    (tail (scroll_starts (trace (scrape cfg env d target_url w0).2))) ∧
  (navigations (trace (scrape cfg env d target_url w0).2) = [] ∨
   navigations (trace (scrape cfg env d target_url w0).2) = [target_url]) ∧
  (length (trace (scrape cfg env d target_url w0).2)
   ≤ 3 + 2 * Z.to_nat (max_scrolls_per_session cfg))%nat.
Proof.
  unfold scrape, scrape_run. cbn -[perform].
  set (r0 := {| now_world := w0; trace := [] |}).
  destruct (rate_limited w0).
  { simpl. split_and!; [lia|done|by left|lia]. }
  assert (scroll_starts (trace (if (0 <? stagger d)%Z
                                then perform env (Sleep (stagger d)) r0
                                else (None, r0)).2) = [] ∧
          navigations (trace (if (0 <? stagger d)%Z
                              then perform env (Sleep (stagger d)) r0
                              else (None, r0)).2) = [] ∧
          (length (trace (if (0 <? stagger d)%Z
                          then perform env (Sleep (stagger d)) r0
                          else (None, r0)).2) ≤ 1)%nat) as (Hs1 & Hn1 & Hl1).
  { destruct (0 <? stagger d)%Z; [|split_and!; [done|done|simpl; lia]].
    destruct (perform_trace env (Sleep (stagger d)) r0) as [->| ->];
      split_and!; [done|done|simpl; lia|done|done|simpl; lia]. }
  destruct (if (0 <? stagger d)%Z then _ else _) as [[e|] r1];
    cbn [snd] in Hs1, Hn1, Hl1.
  { rewrite Hs1, Hn1. simpl. split_and!; [lia|done|by left|lia]. }
  destruct (rate_limited (now_world r1)).
  { rewrite Hs1, Hn1. simpl. split_and!; [lia|done|by left|lia]. }
  assert (scroll_starts (trace (perform env (Goto target_url) r1).2) = [] ∧
          (navigations (trace (perform env (Goto target_url) r1).2) = [] ∨
           navigations (trace (perform env (Goto target_url) r1).2)
           = [target_url]) ∧
          (length (trace (perform env (Goto target_url) r1).2) ≤ 2)%nat)
    as (Hs2 & Hn2 & Hl2).
  { destruct (perform_trace env (Goto target_url) r1) as [->| ->].
    - split_and!; [done|by left|lia].
    - unfold scroll_starts, navigations. rewrite !omap_app.
      fold (scroll_starts (trace r1)) (navigations (trace r1)).
      rewrite Hs1, Hn1, length_app. split_and!; [done|by right|simpl; lia]. }
  destruct (perform env (Goto target_url) r1) as [[e|] r2];
    cbn [snd] in Hs2, Hn2, Hl2.
  { rewrite Hs2. simpl. split_and!; [lia|done|done|lia]. }
  assert (scroll_starts (trace (perform env (Sleep (page_load_pause d)) r2).2)
          = [] ∧
          (navigations (trace (perform env (Sleep (page_load_pause d)) r2).2)
           = [] ∨
           navigations (trace (perform env (Sleep (page_load_pause d)) r2).2)
           = [target_url]) ∧
          (length (trace (perform env (Sleep (page_load_pause d)) r2).2) ≤ 3)%nat)
    as (Hs3 & Hn3 & Hl3).
  { destruct (perform_trace env (Sleep (page_load_pause d)) r2) as [->| ->].
    - split_and!; [done|done|lia].
    - unfold scroll_starts, navigations. rewrite !omap_app.
      fold (scroll_starts (trace r2)) (navigations (trace r2)).
      rewrite Hs2, length_app. simpl. rewrite !app_nil_r.
      split_and!; [done|done|simpl; lia]. }
  destruct (perform env (Sleep (page_load_pause d)) r2) as [[e|] r3];
    cbn [snd] in Hs3, Hn3, Hl3.
  { rewrite Hs3. simpl. split_and!; [lia|done|done|lia]. }
  destruct (scroll_loop_steps (tweets_per_session cfg) (scroll_pause d)
              (Z.to_nat (max_scrolls_per_session cfg)) O r3)
    as (ext & -> & Hn & Hc & Hl & Hs).
  unfold scroll_starts at 1 2, navigations at 1 2.
  rewrite !omap_app. fold (scroll_starts (trace r3)) (scroll_starts ext)
    (navigations (trace r3)) (navigations ext).
  rewrite Hs3, Hn, !app_nil_r. cbn [app].
  split_and!; [done| |done|rewrite length_app; lia].
  destruct Hs as [->|(ws & -> & Hws)]; [done|]. done.
Qed.
End session_chain_facts.

Lemma scroll_steps_bounded_witness :
  (StickySession.trace
     (StickySession.scrape (mkConfig 2 1 3) filling_env sample_draws
        "https://x.com/ann" idle_world).2).*1
  = [ StickySession.Sleep 4; StickySession.Goto "https://x.com/ann";
      StickySession.Sleep 3; StickySession.ScrollToBottom; StickySession.Sleep 2 ] ∧
  ¬ short_of 1
      (StickySession.mkWorld false [ghost_first; ghost_first; ghost_first] None) ∧
  scroll_starts
    (StickySession.trace
       (StickySession.scrape (mkConfig 2 1 3) filling_env sample_draws
          "https://x.com/ann" idle_world).2)
  = [StickySession.mkWorld false [ghost_first; ghost_first; ghost_first] None] ∧
  (length (scroll_starts
     (StickySession.trace
        (StickySession.scrape (mkConfig 2 1 3) filling_env sample_draws
           "https://x.com/ann" idle_world).2)) ≤ 3)%nat.
Proof.
  destruct (scroll_steps_bounded (mkConfig 2 1 3) filling_env idle_world
              sample_draws "https://x.com/ann") as (Hc & _).
  split_and!; [reflexivity| |reflexivity|exact Hc].
  unfold short_of. simpl. lia.
Defined.

Lemma session_stops_at_exception_witness :
  (StickySession.trace
     (StickySession.scrape sample_config timeout_env sample_draws
        "https://x.com/ann" idle_world).2).*1
  = [StickySession.Sleep 4; StickySession.Goto "https://x.com/ann"] ∧
  (timeout_env 1%nat (StickySession.Goto "https://x.com/ann") idle_world).2
  = Some TimeoutError ∧
  (StickySession.scrape sample_config timeout_env sample_draws
     "https://x.com/ann" idle_world).1 = ([], None) ∧
  follows timeout_env O idle_world
    (StickySession.trace
       (StickySession.scrape sample_config timeout_env sample_draws
          "https://x.com/ann" idle_world).2).
Proof.
  destruct (session_stops_at_exception sample_config timeout_env idle_world
              sample_draws "https://x.com/ann") as (Hf & _).
  split_and!; [reflexivity|reflexivity|reflexivity|exact Hf].
Defined.

(** ** More on the merge *)

Section merge_edge_facts.
Import TwitterScraper.

Lemma py_lt_raises a b e : py_lt a b = Raise e → e = TypeError.
Proof.
  unfold py_lt. intros H.
  destruct a, b; simpl in H; try discriminate H; by injection H.
Qed.

Lemma py_lt_not_null a b r : py_lt a b = Ok r → a ≠ JNull ∧ b ≠ JNull.
Proof. unfold py_lt. by destruct a, b. Qed.

Lemma insert_desc_raises t l e : insert_desc t l = Raise e → e = TypeError.
Proof.
  induction l as [|x l IH]; simpl; [done|].
  unfold mbind, result_bind.
  destruct (py_lt _ _) as [[]|e'] eqn:Hlt; simpl.
  - destruct (insert_desc t l) as [l'|e'']; simpl; [done|].
    intros [= <-]. by apply IH.
  - done.
  - intros [= <-]. by eapply py_lt_raises.
Qed.

Lemma sort_desc_raises l e : sort_desc l = Raise e → e = TypeError.
Proof.
  induction l as [|t l IH]; simpl; [done|].
  unfold mbind, result_bind.
  destruct (sort_desc l) as [sorted|e']; simpl.
  - apply insert_desc_raises.
  - intros [= <-]. by apply IH.
Qed.

Lemma insert_desc_Permutation t l l' :
  insert_desc t l = Ok l' → l' ≡ₚ t :: l.
Proof.
  revert l'. induction l as [|x l IH]; intros l'; simpl.
  - by intros [= <-].
  - unfold mbind, result_bind.
    destruct (py_lt _ _) as [[]|e'] eqn:Hlt; simpl; [|by intros [= <-]|done].
    destruct (insert_desc t l) as [l''|e'']; simpl; [|done].
    intros [= <-]. rewrite (IH l'' eq_refl). apply Permutation_swap.
Qed.

Lemma sort_desc_Permutation l sorted :
  sort_desc l = Ok sorted → sorted ≡ₚ l.
Proof.
  revert sorted. induction l as [|t l IH]; intros sorted; simpl.
  - by intros [= <-].
  - unfold mbind, result_bind.
    destruct (sort_desc l) as [sorted'|e']; simpl; [|done].
    intros Hi%insert_desc_Permutation. by rewrite Hi, (IH sorted' eq_refl).
Qed.

Lemma insert_desc_compares t x rest l' :
  insert_desc t (x :: rest) = Ok l' →
  tw_created_at t ≠ JNull ∧ tw_created_at x ≠ JNull.
Proof.
  simpl. unfold mbind, result_bind.
  destruct (py_lt _ _) as [r|e'] eqn:Hlt; simpl; [|done].
  intros _. by eapply py_lt_not_null.
Qed.

Lemma sort_desc_no_null l sorted :
  sort_desc l = Ok sorted → (2 ≤ length l)%nat →
  Forall (λ t, tw_created_at t ≠ JNull) l.
Proof.
  revert sorted. induction l as [|t l IH]; intros sorted; simpl; [lia|].
  unfold mbind, result_bind.
  destruct (sort_desc l) as [sorted'|e'] eqn:Hs; simpl; [|done].
  intros Hi Hlen. pose proof (sort_desc_Permutation _ _ Hs) as Hp.
  destruct sorted' as [|x rest].
  { apply Permutation_length in Hp. simpl in Hp. lia. }
  destruct (insert_desc_compares _ _ _ _ Hi) as [Ht Hx].
  constructor; [done|].
  destruct l as [|t1 [|t2 l]].
  - simpl in Hlen. lia.
  - apply Permutation_singleton_r in Hp. injection Hp as -> ->.
    by constructor.
  - apply (IH (x :: rest)); [done|simpl; lia].
Qed.

(** X13.  One merged record whose creation timestamp is [None] (a
    payload with a null "created_at") makes the sort of two or more records
    raise [TypeError]: the merge raises and returns no record at all. *)
Theorem null_timestamp_breaks_merge all_batches all_profiles limit t :
  t ∈ merge_batches all_batches →
  tw_created_at t = JNull →
  (2 ≤ length (merge_batches all_batches))%nat →
  merge_results all_batches all_profiles limit = Raise TypeError.
Proof.
  intros Hin Hnull Hlen. unfold merge_results, mbind, result_bind.
  destruct (sort_desc (merge_batches all_batches)) as [sorted|e] eqn:Hs; simpl.
  - pose proof (sort_desc_no_null _ _ Hs Hlen) as Hall.
    rewrite Forall_forall in Hall. by destruct (Hall t Hin).
  - f_equal. by eapply sort_desc_raises.
Qed.

(** X14.  The cut to [limit] is Python's slice: the posts returned are
    a prefix of the sorted merge; a limit that is not below zero keeps at
    most that many, and a negative limit drops that many records from the
    end, the oldest ones, keeping none when there are no more than that. *)
Theorem limit_is_a_slice all_batches all_profiles limit r :
  merge_results all_batches all_profiles limit = Ok r →
  ∃ sorted,
    sort_desc (merge_batches all_batches) = Ok sorted ∧
    sorted ≡ₚ merge_batches all_batches ∧
    res_tweets r `prefix_of` sorted ∧
    Z.of_nat (length (res_tweets r))
    = (if (0 <=? limit)%Z
       then Z.min limit (Z.of_nat (length sorted))
       else Z.max 0 (Z.of_nat (length sorted) + limit))%Z.
Proof.
  unfold merge_results, mbind, result_bind.
  destruct (sort_desc (merge_batches all_batches)) as [sorted|e] eqn:Hs;
    simpl; [|done].
  destruct (best_profile all_profiles) as [best|e]; simpl; [|done].
  intros [= <-]. simpl. exists sorted.
  split_and!; [done|by apply sort_desc_Permutation| |].
  - unfold slice_to. destruct (0 <=? limit)%Z; apply prefix_take.
  - unfold slice_to. destruct (Z.leb_spec 0 limit); rewrite length_take; lia.
Qed.


End merge_edge_facts.

Lemma null_timestamp_breaks_merge_witness :
  _extract_tweets sample_clock undated_payload = Ok undated_records ∧
  (tw_created_at <$> undated_records) = [JStr "Mon Jan 01"; JNull] ∧
  (2 ≤ length (TwitterScraper.merge_batches [undated_records]))%nat ∧
  TwitterScraper.merge_results [undated_records] [] 10 = Raise TypeError.
Proof.
  assert (nth 1 undated_records blank_tweet
          ∈ TwitterScraper.merge_batches [undated_records]) as H1.
  { vm_compute. apply list_elem_of_further, list_elem_of_here. }
  assert (tw_created_at (nth 1 undated_records blank_tweet) = JNull) as H2
    by reflexivity.
  assert (2 ≤ length (TwitterScraper.merge_batches [undated_records]))%nat
    as H3 by (vm_compute; lia).
  split_and!; [reflexivity|reflexivity|exact H3|].
  apply (null_timestamp_breaks_merge [undated_records] [] 10 _ H1 H2 H3).
Defined.

Lemma limit_is_a_slice_witness :
  ∃ r, TwitterScraper.merge_results sample_batches [] (-1) = Ok r ∧
       (tw_id <$> TwitterScraper.res_tweets r) = ["1002"; "1003"] ∧
       Z.of_nat (length (TwitterScraper.res_tweets r)) = 2.
Proof.
  eexists. split; [vm_compute; reflexivity|]. split; [reflexivity|].
  destruct (limit_is_a_slice sample_batches [] (-1) _ eq_refl)
    as (sorted & Hs & _ & _ & Hlen).
  vm_compute in Hs. injection Hs as <-. exact Hlen.
Defined.


(** ** The pool after a scrape call *)

Section spent_pool_facts.
Import TwitterScraper.

Lemma health_after (behave : string → ending) (order : list string) :
  ∀ h,
    let h' := foldl (λ h url,
                 HealthMonitor.record (ending_ok (behave url))
                   (if ending_ok (behave url) then ending_count (behave url) else 0)
                   (ending_elapsed (behave url)) h) h order in
    HealthMonitor.sessions_run h'
    = (HealthMonitor.sessions_run h + length order)%nat ∧
    ((HealthMonitor.sessions_ok h ≤ HealthMonitor.sessions_run h)%nat →
     (HealthMonitor.sessions_ok h' ≤ HealthMonitor.sessions_run h')%nat).
Proof.
  induction order as [|url order IH]; intros h; simpl; [split; [lia|done]|].
  destruct (IH (HealthMonitor.record (ending_ok (behave url))
                  (if ending_ok (behave url) then ending_count (behave url) else 0)
                  (ending_elapsed (behave url)) h)) as [Hrun Hok].
  simpl in *. split; [lia|]. intros Hle. apply Hok.
  destruct (ending_ok (behave url)); lia.
Qed.

Lemma parallel_scrape_spent cfg behave choices limit s :
  (0 < max_parallel_sessions cfg)%Z →
  ProxyQueue.remaining (pq s) ≠ O →
  ProxyQueue.remaining (pq (_parallel_scrape cfg behave choices limit s).2) = O.
Proof.
  intros Hw Hn.
  destruct (parallel_scrape_settles cfg behave choices limit s Hw Hn)
    as (order & _ & ->).
  unfold ProxyQueue.remaining. simpl. by rewrite drop_all.
Qed.

Lemma parallel_scrape_empty cfg behave choices limit s :
  ProxyQueue.remaining (pq s) = O →
  _parallel_scrape cfg behave choices limit s = (Ok empty_result, s).
Proof. intros Hn. unfold _parallel_scrape. by rewrite Hn. Qed.

(** X16.  A scrape call on a pool that is not empty, with a positive
    parallelism, spends the pool: it leaves no proxy queued, it has run one
    session per proxy that was queued (the session counter and the health
    monitor advance by that number, and the monitor still counts no more
    successes than sessions), and every later call on the same scraper
    returns the empty result without running anything. *)
Theorem scrape_spends_the_pool cfg behave choices limit s :
  (0 < max_parallel_sessions cfg)%Z →
  ProxyQueue.remaining (pq s) ≠ O →
  ProxyQueue.remaining (pq (_parallel_scrape cfg behave choices limit s).2) = O ∧
  ProxyQueue.total (pq (_parallel_scrape cfg behave choices limit s).2)
  = ProxyQueue.total (pq s) ∧
  _sid_counter (_parallel_scrape cfg behave choices limit s).2
  = (_sid_counter s + ProxyQueue.remaining (pq s))%nat ∧
  HealthMonitor.sessions_run
    (health (_parallel_scrape cfg behave choices limit s).2)
  = (HealthMonitor.sessions_run (health s) + ProxyQueue.remaining (pq s))%nat ∧
  ((HealthMonitor.sessions_ok (health s)
    ≤ HealthMonitor.sessions_run (health s))%nat →
   (HealthMonitor.sessions_ok
      (health (_parallel_scrape cfg behave choices limit s).2)
    ≤ HealthMonitor.sessions_run
        (health (_parallel_scrape cfg behave choices limit s).2))%nat) ∧
  ∀ cfg' behave' choices' limit',
    _parallel_scrape cfg' behave' choices' limit'
      (_parallel_scrape cfg behave choices limit s).2
    = (Ok empty_result, (_parallel_scrape cfg behave choices limit s).2).
Proof.
  intros Hw Hn.
  pose proof (parallel_scrape_spent cfg behave choices limit s Hw Hn) as Hspent.
  destruct (parallel_scrape_settles cfg behave choices limit s Hw Hn)
    as (order & Hp & Heq).
  split_and!; [done| | | | |].
  - by rewrite Heq.
  - by rewrite Heq.
  - rewrite Heq. simpl.
    destruct (health_after behave order (health s)) as [-> _].
    unfold ProxyQueue.remaining. by rewrite Hp.
  - rewrite Heq. simpl. apply health_after.
  - intros. by apply parallel_scrape_empty.
Qed.

(** *** [scrape_multiple_users] *)

Lemma multiple_users_exhausted cfg behave usernames n :
  ∀ choices results s,
    ProxyQueue.remaining (pq s) = O →
    multiple_users_loop cfg behave choices usernames n results s
    = (Ok (foldl (λ m v, <[v := empty_result]> m) results usernames), s).
Proof.
  induction usernames as [|v usernames IH]; intros choices results s Hn;
    simpl; [done|].
  unfold scrape_user. rewrite parallel_scrape_empty by done. by apply IH.
Qed.

Lemma empty_results_lookup usernames :
  ∀ (results : gmap string scrape_result) v,
    foldl (λ m v, <[v := empty_result]> m) results usernames !! v
    = if bool_decide (v ∈ usernames) then Some empty_result else results !! v.
Proof.
  induction usernames as [|u usernames IH]; intros results v; simpl; [done|].
  rewrite IH. destruct (decide (v = u)) as [->|Hne].
  - rewrite (bool_decide_eq_true_2 (u ∈ u :: usernames)) by left.
    rewrite lookup_insert_eq. by destruct (bool_decide _).
  - rewrite lookup_insert_ne by done.
    by rewrite (bool_decide_ext (v ∈ u :: usernames) (v ∈ usernames))
      by set_solver.
Qed.

(** X17.  [scrape_multiple_users] on a pool that is not empty gives
    every proxy to the first username: when that first call returns, each
    later username of the list is mapped to the empty result (no posts, no
    profile), and so is the first one if the list names it again; only a
    first username that is not repeated keeps what was scraped. *)
Theorem only_first_user_is_scraped cfg behave choices u rest n s r1 s1 :
  (0 < max_parallel_sessions cfg)%Z →
  ProxyQueue.remaining (pq s) ≠ O →
  scrape_user cfg behave (hd [] choices) u n false s = (Ok r1, s1) →
  ∃ results,
    scrape_multiple_users cfg behave choices (u :: rest) n s = (Ok results, s1) ∧
    (∀ v, v ∈ rest → results !! v = Some empty_result) ∧
    (u ∉ rest → results !! u = Some r1) ∧
    (∀ v, v ≠ u → v ∉ rest → results !! v = None).
Proof.
  intros Hw Hn Hfirst.
  assert (ProxyQueue.remaining (pq s1) = O) as Hspent.
  { pose proof (parallel_scrape_spent cfg
                  (behave (user_url u false)) (hd [] choices) n s Hw Hn) as H.
    unfold scrape_user in Hfirst. by rewrite Hfirst in H. }
  unfold scrape_multiple_users. simpl. rewrite Hfirst.
  rewrite multiple_users_exhausted by done.
  eexists. split; [done|]. split_and!.
  - intros v Hv. rewrite empty_results_lookup. by rewrite bool_decide_eq_true_2.
  - intros Hu. rewrite empty_results_lookup.
    rewrite bool_decide_eq_false_2 by done. by rewrite lookup_insert_eq.
  - intros v Hne Hv. rewrite empty_results_lookup.
    rewrite bool_decide_eq_false_2 by done. by rewrite lookup_insert_ne.
Qed.
End spent_pool_facts.

Lemma scrape_spends_the_pool_witness :
  (0 < max_parallel_sessions sample_config)%Z ∧
  ProxyQueue.remaining (TwitterScraper.pq scenario_scraper) = 3%nat ∧
  ProxyQueue.remaining
    (TwitterScraper.pq
       (TwitterScraper._parallel_scrape sample_config scenario_behave
          [1%nat; O] 500 scenario_scraper).2) = O ∧
  HealthMonitor.sessions_run
    (TwitterScraper.health
       (TwitterScraper._parallel_scrape sample_config scenario_behave
          [1%nat; O] 500 scenario_scraper).2) = 3%nat ∧
  HealthMonitor.sessions_ok
    (TwitterScraper.health
       (TwitterScraper._parallel_scrape sample_config scenario_behave
          [1%nat; O] 500 scenario_scraper).2) = 2%nat.
Proof.
  assert (0 < max_parallel_sessions sample_config)%Z as H1 by (simpl; lia).
  assert (ProxyQueue.remaining (TwitterScraper.pq scenario_scraper) ≠ O) as H2
    by (vm_compute; lia).
  destruct (scrape_spends_the_pool sample_config scenario_behave [1%nat; O] 500
              scenario_scraper H1 H2) as (Hrem & _ & _ & Hrun & _).
  split_and!; [exact H1|reflexivity|exact Hrem|exact Hrun|reflexivity].
Defined.

Lemma only_first_user_is_scraped_witness :
  ∃ results s1,
    scrape_multiple_users sample_config page_behave [] ["ann"; "bob"; "cy"] 100
      scenario_scraper = (Ok results, s1) ∧
    (length ∘ TwitterScraper.res_tweets <$> results !! "ann") = Some 5%nat ∧
    results !! "bob" = Some empty_result ∧
    results !! "cy" = Some empty_result.
Proof.
  assert (0 < max_parallel_sessions sample_config)%Z as H1 by (simpl; lia).
  assert (ProxyQueue.remaining (TwitterScraper.pq scenario_scraper) ≠ O) as H2
    by (vm_compute; lia).
  destruct (scrape_user sample_config page_behave (hd [] []) "ann" 100 false
              scenario_scraper) as [r s1] eqn:Hfirst.
  assert (∃ r1, r = Ok r1 ∧ length (TwitterScraper.res_tweets r1) = 5%nat)
    as (r1 & -> & Hlen).
  { vm_compute in Hfirst. injection Hfirst as <- _. eexists. split; reflexivity. }
  destruct (only_first_user_is_scraped sample_config page_behave []
              "ann" ["bob"; "cy"] 100 scenario_scraper r1 s1 H1 H2 Hfirst)
    as (results & Hall & Hrest & Hu & _).
  exists results, s1. split_and!; [exact Hall| | |].
  - rewrite Hu; [simpl; by rewrite Hlen|].
    intros Hin. apply elem_of_cons in Hin as [Hin|Hin]; [discriminate Hin|].
    apply elem_of_cons in Hin as [Hin|Hin]; [discriminate Hin|].
    by apply elem_of_nil in Hin.
  - apply Hrest. apply list_elem_of_here.
  - apply Hrest. apply list_elem_of_further, list_elem_of_here.
Defined.

(** ** The statistics of the pool *)

Section stats_facts.
Import ProxyQueue.

Lemma record_dom url ok n e p :
  dom (_stats (record url ok n e p)) = dom (_stats p).
Proof.
  unfold record. destruct (_stats p !! url) as [s|] eqn:Hs; [|done].
  simpl. rewrite dom_insert_L.
  assert (url ∈ dom (_stats p)) by (apply elem_of_dom; eauto). set_solver.
Qed.

Lemma record_total url ok n e p :
  _total_loaded (record url ok n e p) = _total_loaded p.
Proof. unfold record. by destruct (_stats p !! url). Qed.

(** X18.  [record] rewrites the outcome of one known URL and nothing
    else: the record of that URL takes the new flag, count and time and
    keeps its speed, every other record is as it was, no URL gains or loses
    a record, and a URL that was never loaded is ignored. *)
Theorem record_updates_one_entry p url ok n e :
  dom (_stats (record url ok n e p)) = dom (_stats p) ∧
  (∀ s, _stats p !! url = Some s →
        _stats (record url ok n e p) !! url
        = Some (mkStat (st_speed s) ok n e)) ∧
  (∀ other, other ≠ url →
            _stats (record url ok n e p) !! other = _stats p !! other) ∧
  (_stats p !! url = None → record url ok n e p = p) ∧
  _q (record url ok n e p) = _q p ∧
  total (record url ok n e p) = total p.
Proof.
  split_and!.
  - apply record_dom.
  - intros s Hs. unfold record. rewrite Hs. simpl. by rewrite lookup_insert_eq.
  - intros other Hne. unfold record.
    destruct (_stats p !! url); [|done]. simpl. by rewrite lookup_insert_ne.
  - intros Hs. unfold record. by rewrite Hs.
  - apply record_queue.
  - apply record_total.
Qed.

Lemma run_stats calls :
  ∀ p, dom (_stats (run calls p).2) = dom (_stats p) ∧
       _total_loaded (run calls p).2 = _total_loaded p.
Proof.
  induction calls as [|c calls IH]; intros p; [done|].
  destruct c as [|url ok n e| | |]; simpl; try apply IH.
  - unfold checkout. destruct (_q p) as [|url rest].
    + specialize (IH p). by destruct (run calls p).
    + specialize (IH {| _q := rest; _stats := _stats p;
                        _total_loaded := _total_loaded p |}).
      by destruct (run calls _).
  - destruct (IH (record url ok n e p)) as [-> ->].
    by rewrite record_dom, record_total.
Qed.

Lemma size_list_to_set_le (l : list string) :
  (size (list_to_set l : gset string) ≤ length l)%nat ∧
  (size (list_to_set l : gset string) = length l → NoDup l).
Proof.
  induction l as [|x l [IHle IHnd]].
  - change (list_to_set [] : gset string) with (∅ : gset string).
    rewrite size_empty. split; [done|constructor].
  - change (list_to_set (x :: l) : gset string)
      with ({[x]} ∪ list_to_set l : gset string).
    cbn [length]. destruct (decide (x ∈ l)) as [Hin|Hnin].
    + assert ({[x]} ∪ list_to_set l = (list_to_set l : gset string)) as ->.
      { apply leibniz_equiv. intros y. rewrite elem_of_union, elem_of_singleton,
          elem_of_list_to_set. split; [intros [->|?]; done|by right]. }
      split; lia.
    + rewrite size_union.
      2:{ intros y Hy%elem_of_singleton Hy'%elem_of_list_to_set. by subst. }
      rewrite size_singleton.
      split; [lia|]. intros Hs. constructor; [done|]. apply IHnd. lia.
Qed.

Lemma used_bounded p : (length (used p) ≤ size (_stats p))%nat.
Proof.
  unfold used, stat_values.
  etrans; [apply length_filter|]. by rewrite length_fmap, length_map_to_list.
Qed.

(** X19.  A proxy list that names a URL twice queues it twice but keeps
    one statistics record for it: the pool has at most as many records as
    [total()], and as many exactly when no URL is repeated.  So, whatever
    calls follow, the sessions that the summary counts never exceed the
    number of distinct URLs. *)
Theorem repeated_url_shares_one_record data p :
  _load (Some data) = Ok p →
  (size (_stats p) ≤ total p)%nat ∧
  (size (_stats p) = total p ↔ NoDup (_q p)) ∧
  ∀ calls,
    total (run calls p).2 = total p ∧
    (length (used (run calls p).2) ≤ size (_stats p))%nat.
Proof.
  intros Hload. destruct (load_facts _ _ Hload) as (Hq & Hd & Ht & _).
  assert (size (_stats p) = size (list_to_set (loaded_urls data) : gset string))
    as Hsize by (by rewrite <- Hd, size_dom).
  destruct (size_list_to_set_le (loaded_urls data)) as [Hle Hnd].
  unfold total. rewrite Hq, Ht, Hsize. split_and!; [done| |].
  - split; [done|]. intros Hn. by apply size_list_to_set.
  - intros calls. destruct (run_stats calls p) as [Hdom Htot].
    split; [by rewrite Htot|].
    etrans; [apply used_bounded|].
    by rewrite <- Hsize, <- !size_dom, Hdom.
Qed.
End stats_facts.

Lemma record_updates_one_entry_witness :
  ProxyQueue._stats sample_pool !! "http://10.0.0.1:8080"
  = Some (ProxyQueue.mkStat (Some (JNum 2)) false 0 0) ∧
  ProxyQueue._stats
    (ProxyQueue.record "http://10.0.0.1:8080" true 5 40 sample_pool)
    !! "http://10.0.0.1:8080"
  = Some (ProxyQueue.mkStat (Some (JNum 2)) true 5 40) ∧
  ProxyQueue._stats sample_pool !! "http://10.0.0.9:8080" = None ∧
  ProxyQueue.record "http://10.0.0.9:8080" true 5 40 sample_pool = sample_pool.
Proof.
  assert (ProxyQueue._stats sample_pool !! "http://10.0.0.1:8080"
          = Some (ProxyQueue.mkStat (Some (JNum 2)) false 0 0)) as H1
    by (vm_compute; reflexivity).
  assert (ProxyQueue._stats sample_pool !! "http://10.0.0.9:8080" = None) as H2
    by (vm_compute; reflexivity).
  destruct (record_updates_one_entry sample_pool "http://10.0.0.1:8080"
              true 5 40) as (_ & Hknown & _).
  destruct (record_updates_one_entry sample_pool "http://10.0.0.9:8080"
              true 5 40) as (_ & _ & _ & Hunknown & _).
  split_and!; [exact H1|apply (Hknown _ H1)|exact H2|apply (Hunknown H2)].
Defined.

Lemma repeated_url_shares_one_record_witness :
  ProxyQueue._load (Some repeated_proxy_list) = Ok repeated_pool ∧
  ProxyQueue.total repeated_pool = 3%nat ∧
  size (ProxyQueue._stats repeated_pool) = 2%nat ∧
  (ProxyQueue.st_speed <$> ProxyQueue._stats repeated_pool !! "http://10.0.0.1:8080")
  = Some (Some (JNum 7)) ∧
  (size (ProxyQueue._stats repeated_pool) ≤ ProxyQueue.total repeated_pool)%nat.
Proof.
  assert (ProxyQueue._load (Some repeated_proxy_list) = Ok repeated_pool) as H
    by (vm_compute; reflexivity).
  destruct (repeated_url_shares_one_record repeated_proxy_list repeated_pool H)
    as (Hle & _).
  split_and!; [exact H|reflexivity|vm_compute; reflexivity
              |vm_compute; reflexivity|exact Hle].
Defined.
